(** * ColorEdit: tolerance-based colour substitution over raster images

    A shallow embedding of [ColorEdit.py] and the properties of its
    recolouring engine: the pixel matcher and transformer, the per-region
    worker, the vertical-strip scheduler and the compositor, together with
    the command-line checks that guard them.

    Python integers are [Z]; tuples of channels are [list Z] indexed the way
    Python indexes them (an absent index raises [IndexError]); the dictionary
    [crop_dict] is a [gmap Z Image]; exceptions are values of [exn] carried by
    the [result] monad.  The imaging library (Pillow) is not part of the
    program: its operations [crop], [paste], [getpixel] and [putpixel] are
    modelled on images stored as rows of pixels, and the conversion it applies
    to a colour tuple when storing it is a parameter of the development. *)

From Stdlib Require Import ZArith Lia Ascii String.
From stdpp Require Import base list list_numbers gmap strings.

Local Open Scope Z_scope.

(** ** Exceptions *)

(** The exceptions the program can meet.  [SystemExit] is what [quit] raises;
    it is not an [Exception] in Python's hierarchy, so [except Exception]
    lets it through.  [Blocked] stands for a [q.get()] on a queue that no
    worker will ever fill. *)
Inductive exn : Type :=
  | IndexError
  | KeyError
  | ValueError
  | SystemExit (code : Z)
  | Blocked.

Inductive result (A : Type) : Type :=
  | Ok (a : A)
  | Raise (e : exn).
Arguments Ok {A} a.
Arguments Raise {A} e.

#[global] Instance result_ret : MRet result := fun A a => Ok a.
#[global] Instance result_bind : MBind result := fun A B f m =>
  match m with
  | Ok a => f a
  | Raise e => Raise e
  end.

(** [try: body except <catches>: handler]. *)
Definition try_except {A} (body : result A) (catches : exn → bool)
    (handler : result A) : result A :=
  match body with
  | Ok a => Ok a
  | Raise e => if catches e then handler else Raise e
  end.

Definition is_IndexError (e : exn) : bool :=
  match e with IndexError => true | _ => false end.
Definition is_ValueError (e : exn) : bool :=
  match e with ValueError => true | _ => false end.
(** [except Exception] catches everything but [SystemExit]. *)
Definition is_Exception (e : exn) : bool :=
  match e with SystemExit _ => false | _ => true end.

(** [for i in l: s = body(i, s)], stopping at the first exception. *)
Fixpoint for_each {St : Type} (l : list Z) (body : Z → St → result St)
    (s : St) : result St :=
  match l with
  | [] => Ok s
  | i :: l' => s' ← body i s; for_each l' body s'
  end.

(** Python's [range(a, b)] and [range(n)]. *)
Definition range (a b : Z) : list Z := seqZ a (b - a).
Definition range0 (n : Z) : list Z := range 0 n.

(** [v in l] on a sequence of integers. *)
Definition py_in (v : Z) (l : list Z) : bool := bool_decide (v ∈ l).

(** [a and b] on booleans: [b] is evaluated only when [a] is true. *)
Definition py_and (a b : result bool) : result bool :=
  a ≫= (λ x : bool, if x then b else Ok false).

(** ** Pixels and colours *)

(** A pixel is the tuple [getpixel] returns: one integer per band. *)
Abbreviation pixel := (list Z) (only parsing).

(** [t[i]] on a tuple. *)
Definition item (t : pixel) (i : nat) : result Z :=
  match t !! i with
  | Some v => Ok v
  | None => Raise IndexError
  end.

(** A colour is the 4-tuple [check_color] returns. *)
Record Color : Type := mkColor { c0 : Z; c1 : Z; c2 : Z; c3 : Z }.

(** [check_pixel] (lines 123-127). *)
Definition check_pixel (pixel : pixel) (color : Color) (tolerance : Z)
    : result bool :=
  py_and (p ← item pixel 0;
          Ok (py_in p (range (c0 color - tolerance) (c0 color + tolerance))))
 (py_and (p ← item pixel 1;
          Ok (py_in p (range (c1 color - tolerance) (c1 color + tolerance))))
         (p ← item pixel 2;
          Ok (py_in p (range (c2 color - tolerance) (c2 color + tolerance))))).

(** [change_pixel] (lines 130-137): the 4-tuple is tried first, and the
    3-tuple is built when [pixel[3]] raises [IndexError]. *)
Definition change_pixel (pixel : pixel) (color1 color2 : Color)
    : result (list Z) :=
  try_except
    (p0 ← item pixel 0; p1 ← item pixel 1; p2 ← item pixel 2;
     p3 ← item pixel 3;
     Ok [c0 color2 + p0 - c0 color1; c1 color2 + p1 - c1 color1;
         c2 color2 + p2 - c2 color1; p3])
    is_IndexError
    (p0 ← item pixel 0; p1 ← item pixel 1; p2 ← item pixel 2;
     Ok [c0 color2 + p0 - c0 color1; c1 color2 + p1 - c1 color1;
         c2 color2 + p2 - c2 color1]).

(** ** Images *)

Inductive Mode : Type := RGB | RGBA.

Definition bands (m : Mode) : nat :=
  match m with RGB => 3%nat | RGBA => 4%nat end.

(** An image: its mode, its [size] = (width, height) and its pixels, one
    list per row. *)
Record Image : Type := mkImage {
  mode : Mode;
  size : Z * Z;
  rows : list (list pixel)
}.

(** The pixel in column [x] of row [y], when there is one. *)
Definition px (img : Image) (x y : nat) : option pixel :=
  rows img !! y ≫= (.!! x).

Definition in_image (img : Image) (x y : Z) : bool :=
  bool_decide (0 ≤ x < (size img).1 ∧ 0 ≤ y < (size img).2).

(** [img.getpixel((x, y))]; the loops of [change_color] only pass
    coordinates inside the image. *)
Definition getpixel (img : Image) (xy : Z * Z) : result pixel :=
  if in_image img xy.1 xy.2 then
    match px img (Z.to_nat xy.1) (Z.to_nat xy.2) with
    | Some p => Ok p
    | None => Raise IndexError
    end
  else Raise IndexError.

Section Codec.

(** What the library stores for a colour tuple handed to [putpixel]: the
    program hands over unclamped sums and leaves their treatment to it. *)
Variable ink : list Z → pixel.

(** [img.putpixel((x, y), value)]; the image is updated in place, so the
    updated image is returned. *)
Definition putpixel (img : Image) (xy : Z * Z) (value : list Z)
    : result Image :=
  if in_image img xy.1 xy.2 then
    Ok (mkImage (mode img) (size img)
          (alter (<[Z.to_nat xy.1 := ink value]>) (Z.to_nat xy.2) (rows img)))
  else Raise IndexError.

(** [img.crop((x0, y0, x1, y1))]: a new image of the box's size; a position
    of the box outside the source reads as a zero pixel. *)
Definition crop (img : Image) (box : Z * Z * Z * Z) : Image :=
  let '(x0, y0, x1, y1) := box in
  mkImage (mode img) (x1 - x0, y1 - y0)
    ((λ y, (λ x,
        if in_image img x y
        then default (replicate (bands (mode img)) 0)
               (px img (Z.to_nat x) (Z.to_nat y))
        else replicate (bands (mode img)) 0)
      <$> seqZ x0 (x1 - x0)) <$> seqZ y0 (y1 - y0)).

Definition in_box (box : Z * Z * Z * Z) (x y : Z) : bool :=
  let '(x0, y0, x1, y1) := box in
  bool_decide (x0 ≤ x < x1 ∧ y0 ≤ y < y1).

(** [img.paste(im, (x0, y0, x1, y1))]: the pixels of [im] overwrite the box
    in place; the library refuses an [im] whose size is not the box's. *)
Definition paste (img im : Image) (box : Z * Z * Z * Z) : result Image :=
  let '(x0, y0, x1, y1) := box in
  if bool_decide (size im = (x1 - x0, y1 - y0)) then
    Ok (mkImage (mode img) (size img)
          (imap (λ y row, imap (λ x p,
              if in_box box (Z.of_nat x) (Z.of_nat y)
              then default p (px im (Z.to_nat (Z.of_nat x - x0))
                                    (Z.to_nat (Z.of_nat y - y0)))
              else p) row) (rows img)))
  else Raise ValueError.

(** ** The region worker *)

(** The body of the loops of [change_color] (lines 179-181), at column [x]
    of row [y]. *)
Definition visit (img : Image) (color1 color2 : Color) (tolerance : Z)
    (x y : Z) : result Image :=
  pixel ← getpixel img (x, y);
  m ← check_pixel pixel color1 tolerance;
  if m : bool then
    value ← change_pixel pixel color1 color2;
    putpixel img (x, y) value
  else Ok img.

(** [change_color] (lines 174-182).  The worker's [q.put([counter, img])]
    is its return value here: the container that reaches the queue. *)
Definition change_color (counter : Z) (img : Image) (color1 color2 : Color)
    (tolerance : Z) : result (Z * Image) :=
  img' ← for_each (range0 (size img).1) (λ x img,
            for_each (range0 (size img).2) (λ y img,
              visit img color1 color2 tolerance x y) img) img;
  Ok (counter, img').

(** ** The scheduler and the compositor *)

(** The box of area [i] (lines 151 and 168). *)
Definition area (img : Image) (core_count i : Z) : Z * Z * Z * Z :=
  (i * (size img).1 / core_count, 0,
   (i + 1) * (size img).1 / core_count, (size img).2).

(** [q.get()] on the containers that are or will be in the queue. *)
Definition q_get {A} (q : list A) : result (A * list A) :=
  match q with
  | [] => Raise Blocked
  | c :: q' => Ok (c, q')
  end.

(** The containers in the order they reach the queue, when the processes
    finish in the order [arrival] (a list of process numbers): process [i]
    runs [change_color] on its own copy of area [i]. *)
Definition run_processes (arrival : list Z) (img : Image)
    (color1 color2 : Color) (tolerance core_count : Z)
    : result (list (Z * Image)) :=
  mapM (M := result) (λ i,
    change_color i (crop img (area img core_count i)) color1 color2 tolerance)
    arrival.

(** Lines 162-165: the containers are unpacked into [crop_dict]. *)
Definition collect (core_count : Z) (q : list (Z * Image))
    : result (gmap Z Image * list (Z * Image)) :=
  for_each (range0 core_count) (λ _ st,
    '(container, q') ← q_get st.2;
    Ok (<[container.1 := container.2]> st.1, q')) (∅, q).

(** Lines 167-168, over a list of area numbers: each area of [crop_dict]
    is pasted over its box. *)
Definition paste_areas (areas : list Z) (crop_dict : gmap Z Image)
    (core_count : Z) (img : Image) : result Image :=
  for_each areas (λ i img,
    match crop_dict !! i with
    | Some im => paste img im (area img core_count i)
    | None => Raise KeyError
    end) img.

(** [change_img] (lines 140-171).  The order in which the processes deliver
    their containers is not fixed by the program; it is the parameter
    [arrival].  The image is changed in place, so the changed image is
    returned. *)
Definition change_img (arrival : list Z) (img : Image)
    (color1 color2 : Color) (tolerance core_count : Z) : result Image :=
  q ← run_processes arrival img color1 color2 tolerance core_count;
  st ← collect core_count q;
  paste_areas (range0 core_count) st.1 core_count img.

(** The run restricted to the areas in [areas]: only their processes are
    started (and deliver in the order [arrival]), only their containers are
    collected, only they are pasted. *)
Definition change_img_only (areas arrival : list Z) (img : Image)
    (color1 color2 : Color) (tolerance core_count : Z) : result Image :=
  q ← run_processes arrival img color1 color2 tolerance core_count;
  st ← collect (Z.of_nat (length areas)) q;
  paste_areas areas st.1 core_count img.

End Codec.

(** The dictionary that holds the containers of [q], unpacked in order. *)
Definition unpack (q : list (Z * Image)) : gmap Z Image :=
  foldl (λ d c, <[c.1 := c.2]> d) ∅ q.

(** The column at which area [i] of a [W]-wide image cut in [K] starts, as
    [area] computes it; area [i] ends where area [i + 1] starts. *)
Definition bound (W K i : Z) : Z := i * W / K.

(** The width of area [i], and the areas that are not empty. *)
Definition area_width (W K i : Z) : Z := bound W K (i + 1) - bound W K i.

Definition nonempty_areas (W K : Z) : list Z :=
  filter (λ i, 0 < area_width W K i) (range0 K).

(** The four entries of a box, (left, upper, right, lower). *)
Definition box_left (box : Z * Z * Z * Z) : Z :=
  let '(x0, _, _, _) := box in x0.
Definition box_upper (box : Z * Z * Z * Z) : Z :=
  let '(_, y0, _, _) := box in y0.
Definition box_right (box : Z * Z * Z * Z) : Z :=
  let '(_, _, x1, _) := box in x1.
Definition box_lower (box : Z * Z * Z * Z) : Z :=
  let '(_, _, _, y1) := box in y1.


(** ** The command line *)

(** [exit_error] (lines 39-41): the usage text is printed and [quit(1)]
    raises [SystemExit]. *)
Definition exit_error {A} : result A := Raise (SystemExit 1).

(** [argv[i]]. *)
Definition arg (argv : list string) (i : nat) : result string :=
  match argv !! i with
  | Some a => Ok a
  | None => Raise IndexError
  end.

(** What [parse_parameters] returns: a 5-tuple for a single image, a 6-tuple
    for a directory. *)
Inductive Params : Type :=
  | SingleImage (image_path color_1 color_2 : string)
                (tolerance core_count : Z)
  | Directory (dir_path extension color_1 color_2 : string)
              (tolerance core_count : Z).

Definition tolerance_of (p : Params) : Z :=
  match p with
  | SingleImage _ _ _ t _ => t
  | Directory _ _ _ _ t _ => t
  end.

Section CommandLine.

(** Python's [int] on a string: [None] is its [ValueError]. *)
Variable int : string → option Z.

Definition py_int (s : string) : result Z :=
  match int s with
  | Some n => Ok n
  | None => Raise ValueError
  end.

(** Lines 46-51 of [parse_parameters]: the first [try] block, which leaves
    [core_count] bound. *)
Definition core_count_check (argv : list string) : result Z :=
  try_except
    (a ← arg argv 1;
     core_count ← py_int a;
     _ ← (if negb (core_count >=? 1) then exit_error else Ok ());
     Ok core_count)
    is_ValueError
    exit_error.

(** Lines 58-63 and 76-81: the optional tolerance argument at index [i],
    present when [argv] has [i + 1] entries. *)
Definition tolerance_arg (argv : list string) (i : nat) : result Z :=
  if bool_decide (length argv = S i) then
    a ← arg argv i;
    tolerance ← py_int a;
    _ ← (if tolerance >? 255 then exit_error else Ok ());
    Ok tolerance
  else Ok 70.

(** [parse_parameters] (lines 44-88). *)
Definition parse_parameters (argv : list string) : result Params :=
  core_count ← core_count_check argv;
  flag ← arg argv 2;
  if bool_decide (flag = "I"%string) || bool_decide (flag = "i"%string) then
    if bool_decide (length argv = 6%nat) || bool_decide (length argv = 7%nat)
    then
      try_except
        (image_path ← arg argv 3;
         color_1 ← arg argv 4;
         color_2 ← arg argv 5;
         tolerance ← tolerance_arg argv 6;
         Ok (SingleImage image_path color_1 color_2 tolerance core_count))
        is_Exception
        exit_error
    else exit_error
  else if bool_decide (flag = "D"%string) || bool_decide (flag = "d"%string)
  then
    if bool_decide (length argv = 7%nat) || bool_decide (length argv = 8%nat)
    then
      try_except
        (dir_path ← arg argv 3;
         extension ← arg argv 4;
         color_1 ← arg argv 5;
         color_2 ← arg argv 6;
         tolerance ← tolerance_arg argv 7;
         Ok (Directory dir_path extension color_1 color_2 tolerance
               core_count))
        is_Exception
        exit_error
    else exit_error
  else exit_error.

End CommandLine.

(** ** Concrete instances used in the examples *)

(** The library's conversion of a colour tuple: every channel is clipped to
    [0, 255]. *)
Definition clip8 (v : Z) : Z :=
  if v <? 0 then 0 else if 255 <? v then 255 else v.
Definition ink8 (value : list Z) : pixel := clip8 <$> value.

(** [int] on signed decimal numerals. *)
Fixpoint digits (s : string) (acc : Z) : option Z :=
  match s with
  | EmptyString => Some acc
  | String c s' =>
      let d := Z.of_nat (Ascii.nat_of_ascii c) - 48 in
      if bool_decide (0 ≤ d ≤ 9) then digits s' (10 * acc + d) else None
  end.

Definition int_decimal (s : string) : option Z :=
  match s with
  | EmptyString => None
  | String "-"%char EmptyString => None
  | String "-"%char s' => Z.opp <$> digits s' 0
  | _ => digits s 0
  end.

(** The image, the colours and the expected output of the end-to-end
    scenario. *)
Definition scenario_image : Image :=
  mkImage RGBA (4, 1)
    [[[100; 100; 100; 255]; [10; 10; 10; 255]; [100; 100; 100; 255];
      [0; 0; 0; 255]]].
Definition scenario_from : Color := mkColor 100 100 100 255.
Definition scenario_to : Color := mkColor 200 50 0 255.
Definition scenario_expected : Image :=
  mkImage RGBA (4, 1)
    [[[200; 50; 0; 255]; [10; 10; 10; 255]; [200; 50; 0; 255];
      [0; 0; 0; 255]]].

(** ** What the engine is meant to compute *)

(** A well-formed image: a non-negative size, as many rows as its height,
    as many pixels per row as its width, as many channels per pixel as its
    mode has bands. *)
Definition wf (img : Image) : Prop :=
  0 ≤ (size img).1 ∧ 0 ≤ (size img).2 ∧
  length (rows img) = Z.to_nat (size img).2 ∧
  Forall (λ row, length row = Z.to_nat (size img).1 ∧
                 Forall (λ p : pixel, length p = bands (mode img)) row)
         (rows img).

(** The pixel a worker leaves where it read [p]: the stored transform of
    [p] when [p] matches, and [p] itself otherwise. *)
Definition recolor (ink : list Z → pixel) (color1 color2 : Color)
    (tolerance : Z) (p : pixel) : pixel :=
  match check_pixel p color1 tolerance with
  | Ok true =>
      match change_pixel p color1 color2 with
      | Ok value => ink value
      | Raise _ => p
      end
  | _ => p
  end.

(** The same function applied to every pixel of an image. *)
Definition map_pixels (f : pixel → pixel) (img : Image) : Image :=
  mkImage (mode img) (size img) ((λ row : list pixel, f <$> row) <$> rows img).

(** Rows rewritten position by position. *)
Definition grid (F : nat → nat → pixel → pixel) (rws : list (list pixel))
    : list (list pixel) :=
  imap (λ y row, imap (λ x p, F x y p) row) rws.

(** The pixels a worker has already visited when it is about to visit
    [(cx, cy)]: the columns before [cx], and the rows before [cy] of column
    [cx]. *)
Definition visited (cx cy x y : nat) : bool :=
  bool_decide ((x < cx)%nat ∨ (x = cx ∧ (y < cy)%nat)).

(** The rows of a region whose worker is about to visit [(cx, cy)]: the
    visited pixels hold [f] of what they held, the others are untouched. *)
Definition partly (f : pixel → pixel) (cx cy : nat)
    (rws : list (list pixel)) : list (list pixel) :=
  grid (λ x y p, if visited cx cy x y then f p else p) rws.

(** What the worker of area [i] is meant to send back: the crop of the
    area with every pixel recoloured. *)
Definition region_result (ink : list Z → pixel) (color1 color2 : Color)
    (tolerance : Z) (img : Image) (core_count i : Z) : Image :=
  map_pixels (recolor ink color1 color2 tolerance)
    (crop img (area img core_count i)).

(** ** Colour arguments *)

(** [s.split(sep)] for a one-character separator: the pieces between the
    separators, one more than there are separators. *)
Fixpoint split_on (sep : ascii) (s : string) : list string :=
  match s with
  | EmptyString => [EmptyString]
  | String c s' =>
      if Ascii.eqb c sep then EmptyString :: split_on sep s'
      else match split_on sep s' with
           | [] => [String c EmptyString]
           | piece :: pieces => String c piece :: pieces
           end
  end.

(** [a or b] on booleans: [b] is evaluated only when [a] is false. *)
Definition py_or (a b : result bool) : result bool :=
  a ≫= (λ x : bool, if x then Ok true else b).

Definition core_count_of (p : Params) : Z :=
  match p with
  | SingleImage _ _ _ _ n => n
  | Directory _ _ _ _ _ n => n
  end.

Section ColorArguments.

(** [ImageColor.getcolor(color, 'RGBA')] of the imaging library: [None] is
    its [ValueError] for a string it does not know as a colour. *)
Variable getcolor : string → option Color.

(** Python's [int] on a string, as in the command line. *)
Variable int : string → option Z.

(** [int(tpl[i])]. *)
Definition component (tpl : list string) (i : nat) : result Z :=
  a ← arg tpl i; py_int int a.

(** [check_color] (lines 101-120); its [exit(1)] raises [SystemExit]. *)
Definition check_color (color : string) : result Color :=
  try_except
    (match getcolor color with
     | Some c => Ok c
     | None => Raise ValueError
     end)
    is_ValueError
    (try_except
       (let tpl := split_on ","%char color in
        if negb (bool_decide (length tpl = 4%nat)) then Raise ValueError
        else
          bad ←
            py_or (v ← component tpl 0; Ok (v <? 0))
           (py_or (v ← component tpl 1; Ok (v <? 0))
           (py_or (v ← component tpl 2; Ok (v <? 0))
           (py_or (v ← component tpl 3; Ok (v <? 0))
           (py_or (v ← component tpl 0; Ok (v >? 255))
           (py_or (v ← component tpl 1; Ok (v >? 255))
           (py_or (v ← component tpl 2; Ok (v >? 255))
                  (v ← component tpl 3; Ok (v >? 255))))))));
          if bad : bool then Raise ValueError
          else
            v0 ← component tpl 0;
            v1 ← component tpl 1;
            v2 ← component tpl 2;
            v3 ← component tpl 3;
            Ok (mkColor v0 v1 v2 v3))
       is_ValueError
       (Raise (SystemExit 1))).

End ColorArguments.

(** ** The program *)

(** [s.endswith(suffix)]. *)
Definition endswith (s suffix : string) : bool :=
  (String.length suffix <=? String.length s)%nat &&
  String.eqb
    (substring (String.length s - String.length suffix)
       (String.length suffix) s)
    suffix.

Section Program.

(** The library's conversion of stored colours, its colour names, and
    Python's [int]. *)
Variable ink : list Z → pixel.
Variable getcolor : string → option Color.
Variable int : string → option Z.

(** The file system and the path functions: [Image.open(path)] ([None] is
    its [IOError]), [img.save(path)] ([None] when the file is written, the
    exception otherwise), [listdir], [splitext] and [join]. *)
Variable open_image : string → option Image.
Variable save : string → Image → option exn.
Variable listdir : string → result (list string).
Variable splitext : string → string * string.
Variable join : string → string → string.

(** The order in which the processes deliver in the [n]-th call of
    [change_img]. *)
Variable arrival : nat → list Z.

(** [access_img] (lines 91-98); the message is printed and [exit(1)] raises
    [SystemExit]. *)
Definition access_img (image_path : string) : result Image :=
  match open_image image_path with
  | Some img => Ok img
  | None => Raise (SystemExit 1)
  end.

(** Lines 192-196 and 206-210: one image is opened and copied, the colours
    are checked, the copy is changed and saved under [out_path].  The file
    written is returned. *)
Definition edit (n : nat) (img_path out_path color_1 color_2 : string)
    (tolerance core_count : Z) : result (string * Image) :=
  WorkImg ← access_img img_path;
  clr1 ← check_color getcolor int color_1;
  clr2 ← check_color getcolor int color_2;
  WorkImg ← change_img ink (arrival n) WorkImg clr1 clr2 tolerance core_count;
  match save out_path WorkImg with
  | None => Ok (out_path, WorkImg)
  | Some e => Raise e
  end.

(** The loop of lines 202-212 over the names [listdir] returned: the files
    written, in order, and how the loop ended. *)
Fixpoint edit_all (n : nat) (filenames : list string)
    (dir_path extension color_1 color_2 : string) (tolerance core_count : Z)
    : list (string * Image) * result () :=
  match filenames with
  | [] => ([], Ok ())
  | filename :: filenames' =>
      if endswith filename extension then
        let img_path := join dir_path filename in
        match edit n img_path (img_path ++ "-edit" ++ extension)%string
                color_1 color_2 tolerance core_count with
        | Ok written =>
            let '(more, outcome) :=
              edit_all (S n) filenames' dir_path extension color_1 color_2
                tolerance core_count in
            (written :: more, outcome)
        | Raise e => ([], Raise e)
        end
      else
        edit_all n filenames' dir_path extension color_1 color_2
          tolerance core_count
  end.

Definition flag_is (argv : list string) (upper lower : string) : bool :=
  (3 <? length argv)%nat &&
  (bool_decide (argv !! 2%nat = Some upper) ||
   bool_decide (argv !! 2%nat = Some lower)).

(** The main block (lines 185-214): the files written, in order, and how
    the program ended.  Unpacking the tuple of the other mode would raise
    [ValueError]. *)
Definition main (argv : list string) : list (string * Image) * result () :=
  if flag_is argv "I" "i" then
    match parse_parameters int argv with
    | Ok (SingleImage image_path color_1 color_2 tolerance core_count) =>
        let '(filename, file_extension) := splitext image_path in
        match edit 0 image_path (filename ++ "-edit" ++ file_extension)%string
                color_1 color_2 tolerance core_count with
        | Ok written => ([written], Ok ())
        | Raise e => ([], Raise e)
        end
    | Ok (Directory _ _ _ _ _ _) => ([], Raise ValueError)
    | Raise e => ([], Raise e)
    end
  else if flag_is argv "D" "d" then
    match parse_parameters int argv with
    | Ok (Directory dir_path extension color_1 color_2 tolerance
            core_count) =>
        match listdir dir_path with
        | Ok filenames =>
            edit_all 0 filenames dir_path extension color_1 color_2
              tolerance core_count
        | Raise e => ([], Raise e)
        end
    | Ok (SingleImage _ _ _ _ _) => ([], Raise ValueError)
    | Raise e => ([], Raise e)
    end
  else ([], exit_error).

End Program.

(** ** A small world for the examples *)

(** A library that knows one colour name. *)
Definition only_red (color : string) : option Color :=
  if String.eqb color "red" then Some (mkColor 255 0 0 255) else None.

(** A file system with the scenario's image under two paths. *)
Definition two_files (path : string) : option Image :=
  if String.eqb path "image.png" then Some scenario_image
  else if String.eqb path "dir/a.png" then Some scenario_image
  else None.

Definition always_written (path : string) (img : Image) : option exn := None.

Definition listing (dir_path : string) : result (list string) :=
  Ok ["notes.txt"; "a.png"; "b.png"]%string.

Definition short_listing (dir_path : string) : result (list string) :=
  Ok ["notes.txt"; "a.png"]%string.

Definition split_png (path : string) : string * string :=
  (substring 0 (String.length path - 4) path,
   substring (String.length path - 4) 4 path).

Definition slash_join (dir_path filename : string) : string :=
  (dir_path ++ "/" ++ filename)%string.

Definition swapped (n : nat) : list Z := [1; 0].

(** ** What the run leaves behind *)

(** The rows of an image with every pixel recoloured hold as many pixels. *)
Definition same_shape (out img : Image) : Prop :=
  mode out = mode img ∧ size out = size img ∧
  length (rows out) = length (rows img) ∧
  ∀ y row row', rows img !! y = Some row → rows out !! y = Some row' →
    length row' = length row.

(** * Properties *)

(** ** The matcher *)

Lemma elem_of_range (v a b : Z) : v ∈ range a b ↔ a ≤ v < b.
Proof. unfold range. rewrite elem_of_seqZ. lia. Qed.

Lemma py_in_range (v a b : Z) :
  py_in v (range a b) = bool_decide (a ≤ v < b).
Proof. unfold py_in. apply bool_decide_ext, elem_of_range. Qed.

Lemma py_in_range_empty (v a b : Z) : b ≤ a → py_in v (range a b) = false.
Proof. intros. rewrite py_in_range. apply bool_decide_eq_false. lia. Qed.

(** ** The partition into areas *)

Lemma area_bounds (img : Image) (K i : Z) :
  area img K i =
    (bound (size img).1 K i, 0, bound (size img).1 K (i + 1), (size img).2).
Proof. reflexivity. Qed.

Lemma bound_0 (W K : Z) : bound W K 0 = 0.
Proof. unfold bound. rewrite Z.mul_0_l. apply Zdiv_0_l. Qed.

Lemma bound_last (W K : Z) : 1 ≤ K → bound W K K = W.
Proof. intros. unfold bound. rewrite Z.mul_comm. apply Z.div_mul. lia. Qed.

Lemma bound_mono (W K i j : Z) :
  0 ≤ W → 1 ≤ K → i ≤ j → bound W K i ≤ bound W K j.
Proof.
  intros. unfold bound. apply Z.div_le_mono; [lia|].
  apply Z.mul_le_mono_nonneg_r; lia.
Qed.

Lemma bound_range (W K i : Z) :
  0 ≤ W → 1 ≤ K → 0 ≤ i ≤ K → 0 ≤ bound W K i ≤ W.
Proof.
  intros HW HK Hi.
  pose proof (bound_mono W K 0 i HW HK) as H0.
  pose proof (bound_mono W K i K HW HK) as H1.
  rewrite bound_0 in H0. rewrite bound_last in H1 by lia. lia.
Qed.

Lemma bound_cover (W K : Z) (n : nat) (x : Z) :
  0 ≤ W → 1 ≤ K → 0 ≤ x < bound W K (Z.of_nat n) →
  ∃ i, 0 ≤ i < Z.of_nat n ∧ bound W K i ≤ x < bound W K (i + 1).
Proof.
  intros HW HK. induction n as [|n IH]; intros Hx.
  - rewrite bound_0 in Hx. lia.
  - destruct (decide (x < bound W K (Z.of_nat n))) as [Hlt|Hge].
    + destruct IH as (i & Hi & Hb); [lia|]. exists i. split; [lia|done].
    + exists (Z.of_nat n). split; [lia|].
      replace (Z.of_nat n + 1) with (Z.of_nat (S n)) by lia. lia.
Qed.

(** The bounds cut [[0, W)] without gap or overlap. *)
Lemma bound_partition (W K : Z) :
  0 ≤ W → 1 ≤ K →
  (∀ i, 0 ≤ i < K → 0 ≤ bound W K i ≤ bound W K (i + 1) ∧ bound W K (i + 1) ≤ W) ∧
  (∀ x, 0 ≤ x < W →
     ∃ i, (0 ≤ i < K ∧ bound W K i ≤ x < bound W K (i + 1)) ∧
          ∀ j, 0 ≤ j < K ∧ bound W K j ≤ x < bound W K (j + 1) → j = i).
Proof.
  intros HW HK. split.
  - intros i Hi. pose proof (bound_range W K i HW HK).
    pose proof (bound_range W K (i + 1) HW HK).
    pose proof (bound_mono W K i (i + 1) HW HK). lia.
  - intros x Hx.
    destruct (bound_cover W K (Z.to_nat K) x HW HK) as (i & Hi & Hb).
    { rewrite Z2Nat.id by lia. rewrite bound_last by lia. done. }
    exists i. split; [split; [lia|done]|].
    intros j [Hj Hjb].
    destruct (Z.lt_trichotomy j i) as [Hlt|[Heq|Hgt]]; [|done|].
    + pose proof (bound_mono W K (j + 1) i HW HK). lia.
    + pose proof (bound_mono W K (i + 1) j HW HK). lia.
Qed.

(** C5: for every image of width W >= 0 and every worker count K >= 1,
    the boxes that [change_img] crops and pastes, [area img K i] for
    i = 0..K-1, are the vertical strips with column bounds i*W//K and
    (i+1)*W//K over the full height; each lies inside the width; every
    column of the image belongs to exactly one of them, with no gap and no
    overlap, also when W < K leaves some of them empty; and so does every
    pixel position. *)
Theorem C5_areas_partition_width (img : Image) (K : Z) :
  0 ≤ (size img).1 → 1 ≤ K →
  (∀ i, 0 ≤ i < K →
     area img K i =
       (i * (size img).1 / K, 0, (i + 1) * (size img).1 / K, (size img).2) ∧
     0 ≤ box_left (area img K i) ≤ box_right (area img K i) ∧
     box_right (area img K i) ≤ (size img).1) ∧
  (∀ x, 0 ≤ x < (size img).1 →
     ∃ i, (0 ≤ i < K ∧
           box_left (area img K i) ≤ x < box_right (area img K i)) ∧
          ∀ j, 0 ≤ j < K ∧
               box_left (area img K j) ≤ x < box_right (area img K j) →
               j = i) ∧
  (∀ x y, 0 ≤ x < (size img).1 → 0 ≤ y < (size img).2 →
     ∃ i, (0 ≤ i < K ∧ in_box (area img K i) x y = true) ∧
          ∀ j, 0 ≤ j < K ∧ in_box (area img K j) x y = true → j = i).
Proof.
  intros HW HK.
  destruct (bound_partition (size img).1 K HW HK) as [Hin Hcover].
  split_and!.
  - intros i Hi. split; [done|]. rewrite area_bounds. cbn. by apply Hin.
  - intros x Hx. destruct (Hcover x Hx) as (i & Hi & Huniq).
    exists i. split; [by rewrite area_bounds|].
    intros j Hj. apply Huniq. by rewrite area_bounds in Hj.
  - intros x y Hx Hy. destruct (Hcover x Hx) as (i & [Hi Hb] & Huniq).
    exists i. split.
    + split; [done|]. rewrite area_bounds.
      apply bool_decide_eq_true_2. lia.
    + intros j [Hj Hbox]. apply Huniq. split; [done|].
      rewrite area_bounds in Hbox. apply bool_decide_eq_true in Hbox. lia.
Qed.

(** C5 on a 4-wide image with 8 workers: area 3 is the strip of columns
    1 to 2, and column 2 and the pixel (2, 0) belong to one area only. *)
Lemma C5_areas_partition_width_witness :
  (area scenario_image 8 3 = (3 * 4 / 8, 0, (3 + 1) * 4 / 8, 1) ∧
   0 ≤ box_left (area scenario_image 8 3)
     ≤ box_right (area scenario_image 8 3) ∧
   box_right (area scenario_image 8 3) ≤ 4) ∧
  (∃ i, (0 ≤ i < 8 ∧
         box_left (area scenario_image 8 i) ≤ 2
           < box_right (area scenario_image 8 i)) ∧
        ∀ j, 0 ≤ j < 8 ∧
             box_left (area scenario_image 8 j) ≤ 2
               < box_right (area scenario_image 8 j) → j = i) ∧
  (∃ i, (0 ≤ i < 8 ∧ in_box (area scenario_image 8 i) 2 0 = true) ∧
        ∀ j, 0 ≤ j < 8 ∧ in_box (area scenario_image 8 j) 2 0 = true →
             j = i).
Proof.
  destruct (C5_areas_partition_width scenario_image 8)
    as (Hin & Hcolumn & Hpixel); [cbn; lia|lia|].
  split; [apply Hin; lia|].
  split; [apply Hcolumn; cbn; lia|apply Hpixel; cbn; lia].
Defined.

(** ** Rows of pixels, position by position *)

Lemma grid_ext (F G : nat → nat → pixel → pixel) (rws : list (list pixel)) :
  (∀ x y row p, rws !! y = Some row → row !! x = Some p → F x y p = G x y p) →
  grid F rws = grid G rws.
Proof.
  intros HFG. unfold grid. apply imap_ext; intros y row Hrow.
  apply imap_ext; intros x p Hp. eauto.
Qed.

Lemma grid_id (rws : list (list pixel)) : grid (λ _ _ p, p) rws = rws.
Proof.
  unfold grid. apply list_eq; intros y. rewrite list_lookup_imap.
  destruct (rws !! y) as [row|]; [|done]. cbn. f_equal.
  apply list_eq; intros x. rewrite list_lookup_imap.
  by destruct (row !! x).
Qed.

Lemma grid_fmap (f : pixel → pixel) (rws : list (list pixel)) :
  (λ row : list pixel, f <$> row) <$> rws = grid (λ _ _ p, f p) rws.
Proof.
  unfold grid. apply list_eq; intros y.
  rewrite list_lookup_fmap, list_lookup_imap.
  destruct (rws !! y) as [row|]; [|done]. cbn. f_equal.
  apply list_eq; intros x. by rewrite list_lookup_fmap, list_lookup_imap.
Qed.

Lemma grid_grid (F G : nat → nat → pixel → pixel) (rws : list (list pixel)) :
  grid G (grid F rws) = grid (λ x y p, G x y (F x y p)) rws.
Proof.
  unfold grid. apply list_eq; intros y. rewrite !list_lookup_imap.
  destruct (rws !! y) as [row|]; [|done]. cbn. f_equal.
  apply list_eq; intros x. rewrite !list_lookup_imap.
  by destruct (row !! x).
Qed.

Lemma lookup_grid (F : nat → nat → pixel → pixel) (rws : list (list pixel))
    (x y : nat) :
  grid F rws !! y ≫= (.!! x) = F x y <$> (rws !! y ≫= (.!! x)).
Proof.
  unfold grid. rewrite list_lookup_imap.
  destruct (rws !! y) as [row|]; [|done]. cbn.
  by rewrite list_lookup_imap.
Qed.

Lemma alter_insert_grid (F : nat → nat → pixel → pixel)
    (rws : list (list pixel)) (cx cy : nat) (v : pixel) :
  alter (<[cx := v]>) cy (grid F rws) =
    grid (λ x y p, if bool_decide (x = cx ∧ y = cy) then v else F x y p) rws.
Proof.
  unfold grid. apply list_eq; intros y.
  rewrite list_lookup_alter, !list_lookup_imap.
  destruct (decide (cy = y)) as [->|Hne].
  - destruct (rws !! y) as [row|]; [|done]. cbn. f_equal.
    apply list_eq; intros x.
    rewrite list_lookup_insert, length_imap, !list_lookup_imap.
    destruct (row !! x) as [p|] eqn:Hp; cbn.
    + apply lookup_lt_Some in Hp.
      case_decide; case_bool_decide; first [done | lia | tauto].
    + apply lookup_ge_None in Hp. case_decide; [lia|done].
  - destruct (rws !! y) as [row|]; [|done]. cbn. f_equal.
    apply imap_ext; intros x p _. rewrite bool_decide_eq_false_2; [done|lia].
Qed.

(** ** Loops *)

Lemma for_each_seqZ {St : Type} (body : Z → St → result St) (I : Z → St)
    (n : nat) : ∀ a : Z,
  (∀ i, a ≤ i < a + Z.of_nat n → body i (I i) = Ok (I (i + 1))) →
  for_each (seqZ a (Z.of_nat n)) body (I a) = Ok (I (a + Z.of_nat n)).
Proof.
  induction n as [|n IH]; intros a Hbody.
  - cbn. by rewrite Z.add_0_r.
  - rewrite seqZ_cons by lia. cbn [for_each].
    rewrite Hbody by lia. cbn.
    replace (Z.pred (Z.of_nat (S n))) with (Z.of_nat n) by lia.
    replace (Z.succ a) with (a + 1) by lia.
    rewrite IH by (intros; apply Hbody; lia).
    do 2 f_equal. lia.
Qed.

Lemma for_each_range0 {St : Type} (body : Z → St → result St) (I : Z → St)
    (N : Z) :
  0 ≤ N →
  (∀ i, 0 ≤ i < N → body i (I i) = Ok (I (i + 1))) →
  for_each (range0 N) body (I 0) = Ok (I N).
Proof.
  intros HN Hbody. unfold range0, range.
  replace (N - 0) with (Z.of_nat (Z.to_nat N)) by lia.
  rewrite for_each_seqZ by (intros; apply Hbody; lia).
  do 2 f_equal. lia.
Qed.

(** ** Well-formed images *)

Lemma wf_px (img : Image) (x y : Z) :
  wf img → 0 ≤ x < (size img).1 → 0 ≤ y < (size img).2 →
  ∃ p, px img (Z.to_nat x) (Z.to_nat y) = Some p ∧
       length p = bands (mode img).
Proof.
  intros (HW & HH & Hlen & Hrows) Hx Hy. unfold px.
  destruct (lookup_lt_is_Some_2 (rows img) (Z.to_nat y)) as [row Hrow];
    [lia|].
  rewrite Hrow. cbn.
  rewrite Forall_lookup in Hrows. destruct (Hrows _ _ Hrow) as [Hl Hp].
  destruct (lookup_lt_is_Some_2 row (Z.to_nat x)) as [p Hpx]; [lia|].
  exists p. split; [done|].
  rewrite Forall_lookup in Hp. eauto.
Qed.

Lemma wf_inside (img : Image) (x y : nat) (row : list pixel) (p : pixel) :
  wf img → rows img !! y = Some row → row !! x = Some p →
  Z.of_nat x < (size img).1 ∧ Z.of_nat y < (size img).2 ∧
  length p = bands (mode img).
Proof.
  intros (HW & HH & Hlen & Hrows) Hrow Hp.
  rewrite Forall_lookup in Hrows. destruct (Hrows _ _ Hrow) as [Hl Hps].
  apply lookup_lt_Some in Hrow. pose proof (lookup_lt_Some _ _ _ Hp).
  rewrite Forall_lookup in Hps. split_and!; [lia|lia|eauto].
Qed.

Lemma bands_channels (m : Mode) (p : pixel) :
  length p = bands m → ∃ r g b alpha, p = r :: g :: b :: alpha.
Proof.
  destruct p as [|r [|g [|b alpha]]]; destruct m; cbn; try discriminate;
    eauto.
Qed.

(** ** The matcher and the transformer on pixels with three channels *)

Lemma check_pixel_channels (r g b : Z) (alpha : list Z) (color : Color)
    (tolerance : Z) :
  check_pixel (r :: g :: b :: alpha) color tolerance =
    Ok (bool_decide
          ((c0 color - tolerance ≤ r < c0 color + tolerance) ∧
           (c1 color - tolerance ≤ g < c1 color + tolerance) ∧
           (c2 color - tolerance ≤ b < c2 color + tolerance))).
Proof.
  unfold check_pixel, py_and, item; cbn.
  rewrite !py_in_range.
  repeat case_bool_decide; cbn; try reflexivity; exfalso; tauto.
Qed.

Lemma change_pixel_channels (r g b : Z) (alpha : list Z)
    (color1 color2 : Color) :
  ∃ value, change_pixel (r :: g :: b :: alpha) color1 color2 = Ok value.
Proof. destruct alpha; cbn; eauto. Qed.

Lemma recolor_channels (ink : list Z → pixel) (color1 color2 : Color)
    (tolerance : Z) (r g b : Z) (alpha : list Z) :
  let p := r :: g :: b :: alpha in
  (check_pixel p color1 tolerance = Ok false ∧
   recolor ink color1 color2 tolerance p = p) ∨
  (check_pixel p color1 tolerance = Ok true ∧
   ∃ value, change_pixel p color1 color2 = Ok value ∧
            recolor ink color1 color2 tolerance p = ink value).
Proof.
  intros p. unfold recolor.
  destruct (change_pixel_channels r g b alpha color1 color2) as [v Hv].
  fold p in Hv. rewrite Hv.
  subst p. rewrite check_pixel_channels.
  case_bool_decide; [right|left]; eauto.
Qed.

(** ** The region worker *)

Section Engine.

Variable ink : list Z → pixel.
Variables (color1 color2 : Color) (tolerance : Z).

Lemma visit_pixel (m : Mode) (sz : Z * Z) (rws : list (list pixel))
    (x y : Z) :
  wf (mkImage m sz rws) → 0 ≤ x < sz.1 → 0 ≤ y < sz.2 →
  visit ink
    (mkImage m sz
       (partly (recolor ink color1 color2 tolerance) (Z.to_nat x) (Z.to_nat y)
          rws))
    color1 color2 tolerance x y =
  Ok (mkImage m sz
        (partly (recolor ink color1 color2 tolerance) (Z.to_nat x)
           (Z.to_nat (y + 1)) rws)).
Proof.
  intros Hwf Hx Hy. unfold visit.
  destruct (wf_px _ x y Hwf Hx Hy) as (p & Hp & Hlen). cbn in Hp, Hlen.
  assert (Hin : ∀ rws', in_image (mkImage m sz rws') x y = true).
  { intros rws'. apply bool_decide_eq_true_2. cbn. lia. }
  unfold getpixel, putpixel. cbn [fst snd]. rewrite !Hin.
  unfold px in *. unfold partly. cbn [mode size rows] in *. rewrite lookup_grid, Hp. cbn.
  assert (Hnv : visited (Z.to_nat x) (Z.to_nat y) (Z.to_nat x) (Z.to_nat y) = false).
  { apply bool_decide_eq_false_2. lia. }
  rewrite Hnv.
  assert (Hnext : ∀ x' y' row p', rws !! y' = Some row → row !! x' = Some p' →
    (if visited (Z.to_nat x) (Z.to_nat (y + 1)) x' y' then (recolor ink color1 color2 tolerance) p' else p') =
    (if bool_decide (x' = Z.to_nat x ∧ y' = Z.to_nat y) then (recolor ink color1 color2 tolerance) p
     else if visited (Z.to_nat x) (Z.to_nat y) x' y' then (recolor ink color1 color2 tolerance) p' else p')).
  { intros x' y' row p' Hrow Hp'. unfold visited.
    destruct (decide (x' = Z.to_nat x ∧ y' = Z.to_nat y)) as [[-> ->]|Hxy].
    - rewrite Hrow in Hp. cbn in Hp. rewrite Hp' in Hp. injection Hp as ->.
      rewrite !bool_decide_eq_true_2; [done|done|lia].
    - rewrite (bool_decide_eq_false_2 _ Hxy).
      apply (f_equal (λ c : bool, if c then (recolor ink color1 color2 tolerance) p' else p')).
      apply bool_decide_ext. lia. }
  destruct (bands_channels _ _ Hlen) as (r & g & b & alpha & ->).
  destruct (recolor_channels ink color1 color2 tolerance r g b alpha)
    as [[Hc Hr]|[Hc (v & Hv & Hr)]]; rewrite Hc; cbn.
  - do 2 f_equal. apply grid_ext.
    intros x' y' row p' Hrow Hp'. rewrite (Hnext _ _ _ _ Hrow Hp'), Hr.
    destruct (decide (x' = Z.to_nat x ∧ y' = Z.to_nat y)) as [[-> ->]|Hxy].
    + rewrite Hrow in Hp. cbn in Hp. rewrite Hp' in Hp. injection Hp as ->.
      rewrite Hnv. by rewrite bool_decide_eq_true_2.
    + by rewrite (bool_decide_eq_false_2 _ Hxy).
  - rewrite Hv. cbn. do 2 f_equal.
    rewrite alter_insert_grid. apply grid_ext.
    intros x' y' row p' Hrow Hp'. rewrite (Hnext _ _ _ _ Hrow Hp'), Hr. done.
Qed.


Lemma partly_start (g : pixel → pixel) (rws : list (list pixel)) :
  partly g 0 0 rws = rws.
Proof.
  unfold partly. rewrite <- (grid_id rws) at 2. apply grid_ext.
  intros x y _ p _ _. unfold visited.
  rewrite bool_decide_eq_false_2; [done|lia].
Qed.

Lemma partly_column (g : pixel → pixel) (m : Mode) (sz : Z * Z)
    (rws : list (list pixel)) (x : Z) :
  wf (mkImage m sz rws) → 0 ≤ x →
  partly g (Z.to_nat x) (Z.to_nat sz.2) rws =
  partly g (Z.to_nat (x + 1)) 0 rws.
Proof.
  intros Hwf Hx. unfold partly. apply grid_ext.
  intros x' y' row p Hrow Hp.
  destruct (wf_inside _ _ _ _ _ Hwf Hrow Hp) as (_ & Hy & _). cbn in Hy.
  apply (f_equal (λ c : bool, if c then g p else p)).
  apply bool_decide_ext. lia.
Qed.

Lemma partly_end (g : pixel → pixel) (m : Mode) (sz : Z * Z)
    (rws : list (list pixel)) :
  wf (mkImage m sz rws) →
  partly g (Z.to_nat sz.1) 0 rws = (λ row : list pixel, g <$> row) <$> rws.
Proof.
  intros Hwf. rewrite grid_fmap. unfold partly. apply grid_ext.
  intros x' y' row p Hrow Hp.
  destruct (wf_inside _ _ _ _ _ Hwf Hrow Hp) as (Hx & _ & _). cbn in Hx.
  unfold visited. rewrite bool_decide_eq_true_2; [done|lia].
Qed.

(** On a well-formed region the worker never fails, and the container it
    sends holds its counter and the region with every pixel recoloured. *)
Lemma change_color_correct (counter : Z) (im : Image) :
  wf im →
  change_color ink counter im color1 color2 tolerance =
    Ok (counter, map_pixels (recolor ink color1 color2 tolerance) im).
Proof.
  destruct im as [m sz rws]. intros Hwf.
  pose proof Hwf as (HW & HH & _). cbn in HW, HH.
  unfold change_color, map_pixels. cbn [mode size rows].
  rewrite <- (partly_start (recolor ink color1 color2 tolerance) rws) at 1.
  rewrite (for_each_range0 _
    (λ x, mkImage m sz
            (partly (recolor ink color1 color2 tolerance) (Z.to_nat x) 0 rws)))
    by first [ done | intros x Hx; cbn [size];
      rewrite (for_each_range0 _
        (λ y, mkImage m sz
                (partly (recolor ink color1 color2 tolerance)
                   (Z.to_nat x) (Z.to_nat y) rws)))
        by first [ done | intros y Hy; by apply visit_pixel ];
      by rewrite (partly_column _ m) by (done || lia) ].
  cbn. by rewrite (partly_end _ m).
Qed.

End Engine.

(** ** Cropping *)

Lemma px_crop (img : Image) (x0 y0 x1 y1 : Z) (x y : nat) :
  wf img → 0 ≤ x0 → 0 ≤ y0 → x1 ≤ (size img).1 → y1 ≤ (size img).2 →
  Z.of_nat x < x1 - x0 → Z.of_nat y < y1 - y0 →
  px (crop img (x0, y0, x1, y1)) x y =
    px img (Z.to_nat (x0 + Z.of_nat x)) (Z.to_nat (y0 + Z.of_nat y)).
Proof.
  intros Hwf Hx0 Hy0 Hx1 Hy1 Hx Hy.
  destruct (wf_px img (x0 + Z.of_nat x) (y0 + Z.of_nat y) Hwf)
    as (p & Hp & _); [lia|lia|].
  unfold px at 1, crop. cbn [rows].
  rewrite list_lookup_fmap, lookup_seqZ_lt by done. cbn.
  rewrite list_lookup_fmap, lookup_seqZ_lt by done. cbn.
  unfold in_image. rewrite bool_decide_eq_true_2 by lia.
  by rewrite Hp.
Qed.

Lemma wf_crop (img : Image) (x0 y0 x1 y1 : Z) :
  wf img → 0 ≤ x0 ≤ x1 → 0 ≤ y0 ≤ y1 →
  x1 ≤ (size img).1 → y1 ≤ (size img).2 →
  wf (crop img (x0, y0, x1, y1)).
Proof.
  intros Hwf Hx Hy Hx1 Hy1. unfold wf, crop. cbn [mode size rows fst snd].
  split_and!; [lia|lia|by rewrite length_fmap, length_seqZ|].
  apply Forall_fmap, Forall_seqZ. intros y Hyr. cbn.
  split; [by rewrite length_fmap, length_seqZ|].
  apply Forall_fmap, Forall_seqZ. intros x Hxr. cbn.
  destruct (wf_px img x y Hwf) as (p & Hp & Hlen); [lia|lia|].
  unfold in_image. rewrite bool_decide_eq_true_2 by lia.
  by rewrite Hp.
Qed.

Lemma px_map_pixels (g : pixel → pixel) (img : Image) (x y : nat) :
  px (map_pixels g img) x y = g <$> px img x y.
Proof.
  unfold px, map_pixels. cbn [rows]. rewrite list_lookup_fmap.
  destruct (rows img !! y) as [row|]; [|done]. cbn.
  by rewrite list_lookup_fmap.
Qed.

Lemma wf_area (img : Image) (K i : Z) :
  wf img → 1 ≤ K → 0 ≤ i < K → wf (crop img (area img K i)).
Proof.
  intros Hwf HK Hi. pose proof Hwf as (HW & HH & _).
  pose proof (bound_range (size img).1 K i HW HK).
  pose proof (bound_range (size img).1 K (i + 1) HW HK).
  pose proof (bound_mono (size img).1 K i (i + 1) HW HK).
  rewrite area_bounds. apply wf_crop; first [done | lia].
Qed.

(** ** Pasting *)

Lemma paste_grid (img im : Image) (x0 y0 x1 y1 : Z) :
  size im = (x1 - x0, y1 - y0) →
  paste img im (x0, y0, x1, y1) =
    Ok (mkImage (mode img) (size img)
          (grid (λ x y p,
             if in_box (x0, y0, x1, y1) (Z.of_nat x) (Z.of_nat y)
             then default p (px im (Z.to_nat (Z.of_nat x - x0))
                                   (Z.to_nat (Z.of_nat y - y0)))
             else p) (rows img))).
Proof. intros Hsz. unfold paste. by rewrite bool_decide_eq_true_2. Qed.

Lemma paste_empty_box (img im : Image) (x0 y0 y1 : Z) :
  size im = (x0 - x0, y1 - y0) → paste img im (x0, y0, x0, y1) = Ok img.
Proof.
  intros Hsz. rewrite paste_grid by done.
  destruct img as [m sz rws]. cbn [mode size rows]. do 2 f_equal.
  rewrite <- (grid_id rws) at 2. apply grid_ext. intros x y _ p _ _.
  unfold in_box. rewrite bool_decide_eq_false_2; [done|lia].
Qed.

Lemma paste_size (img im out : Image) (box : Z * Z * Z * Z) :
  paste img im box = Ok out → size out = size img.
Proof.
  unfold paste. destruct box as [[[x0 y0] x1] y1].
  case_bool_decide; [|done]. by intros [= <-].
Qed.

(** Pasting the recoloured crop of area [i] over an image whose columns
    before the area are recoloured extends the recoloured part by the
    area. *)
Lemma paste_area (g : pixel → pixel) (m : Mode) (sz : Z * Z)
    (rws : list (list pixel)) (K i : Z) :
  wf (mkImage m sz rws) → 1 ≤ K → 0 ≤ i < K →
  paste (mkImage m sz (partly g (Z.to_nat (bound sz.1 K i)) 0 rws))
    (map_pixels g
       (crop (mkImage m sz rws) (area (mkImage m sz rws) K i)))
    (area (mkImage m sz (partly g (Z.to_nat (bound sz.1 K i)) 0 rws)) K i) =
  Ok (mkImage m sz (partly g (Z.to_nat (bound sz.1 K (i + 1))) 0 rws)).
Proof.
  intros Hwf HK Hi. pose proof Hwf as (HW & HH & _). cbn in HW, HH.
  pose proof (bound_range sz.1 K i HW HK).
  pose proof (bound_range sz.1 K (i + 1) HW HK).
  pose proof (bound_mono sz.1 K i (i + 1) HW HK).
  rewrite !area_bounds. cbn [size]. rewrite paste_grid by done.
  cbn [mode size rows]. do 2 f_equal.
  unfold partly. rewrite grid_grid. apply grid_ext.
  intros x y row p Hrow Hp.
  destruct (wf_inside _ _ _ _ _ Hwf Hrow Hp) as (Hx & Hy & _).
  cbn in Hx, Hy. unfold in_box, visited.
  destruct (decide (bound sz.1 K i ≤ Z.of_nat x < bound sz.1 K (i + 1)))
    as [Hin|Hout].
  - rewrite bool_decide_eq_true_2 by lia.
    rewrite px_map_pixels, px_crop by first [done | cbn; lia].
    replace (Z.to_nat (bound sz.1 K i +
               Z.of_nat (Z.to_nat (Z.of_nat x - bound sz.1 K i)))) with x
      by lia.
    replace (Z.to_nat (0 + Z.of_nat (Z.to_nat (Z.of_nat y - 0)))) with y
      by lia.
    unfold px. cbn [rows]. rewrite Hrow. cbn. rewrite Hp. cbn.
    rewrite bool_decide_eq_true_2; [done|lia].
  - rewrite bool_decide_eq_false_2 by lia.
    apply (f_equal (λ c : bool, if c then g p else p)).
    apply bool_decide_ext. lia.
Qed.

(** ** Collecting the containers *)

Lemma mapM_Ok {A B : Type} (f : A → result B) (g : A → B) (l : list A) :
  (∀ a, a ∈ l → f a = Ok (g a)) → mapM f l = Ok (g <$> l).
Proof.
  induction l as [|a l IH]; intros Hf; [done|].
  cbn. rewrite Hf by left. cbn.
  rewrite IH by (intros; apply Hf; by right). done.
Qed.

Lemma collect_all (K : Z) (q : list (Z * Image)) :
  0 ≤ K → length q = Z.to_nat K → collect K q = Ok (unpack q, []).
Proof.
  intros HK Hlen. unfold collect.
  rewrite (for_each_range0 _
    (λ i, (unpack (take (Z.to_nat i) q), drop (Z.to_nat i) q))); [|done|].
  - rewrite firstn_all2, skipn_all2 by lia. done.
  - intros i Hi. cbn [fst snd].
    destruct (lookup_lt_is_Some_2 q (Z.to_nat i)) as [c Hc]; [lia|].
    replace (Z.to_nat (i + 1)) with (S (Z.to_nat i)) by lia.
    rewrite (drop_S _ _ _ Hc), (take_S_r _ _ _ Hc). cbn.
    unfold unpack. by rewrite foldl_app.
Qed.

Lemma unpack_lookup_from (g : Z → Image) (arrival : list Z) (i : Z) :
  ∀ d : gmap Z Image,
  foldl (λ d c, <[c.1 := c.2]> d) d ((λ i, (i, g i)) <$> arrival) !! i =
    if decide (i ∈ arrival) then Some (g i) else d !! i.
Proof.
  induction arrival as [|j arrival IH]; intros d; cbn.
  - rewrite decide_False; [done|]. apply not_elem_of_nil.
  - rewrite IH. destruct (decide (i ∈ arrival)) as [Hin|Hnin].
    + rewrite decide_True; [done|by right].
    + destruct (decide (i = j)) as [->|Hne].
      * rewrite lookup_insert_eq. rewrite decide_True; [done|by left].
      * rewrite lookup_insert_ne by done.
        rewrite decide_False; [done|]. by intros [?|?]%elem_of_cons.
Qed.

Lemma unpack_lookup (g : Z → Image) (arrival : list Z) (i : Z) :
  i ∈ arrival → unpack ((λ i, (i, g i)) <$> arrival) !! i = Some (g i).
Proof.
  intros Hin. unfold unpack. rewrite unpack_lookup_from.
  by rewrite decide_True.
Qed.

(** Containers filed under their counter: the dictionary does not depend on
    the order in which they are unpacked. *)
Lemma unpack_perm (g : Z → Image) (arrival1 arrival2 : list Z) :
  arrival1 ≡ₚ arrival2 →
  unpack ((λ i, (i, g i)) <$> arrival1) =
  unpack ((λ i, (i, g i)) <$> arrival2).
Proof.
  intros Hperm. apply map_eq. intros i. unfold unpack.
  rewrite !unpack_lookup_from.
  destruct (decide (i ∈ arrival1)) as [H1|H1];
    destruct (decide (i ∈ arrival2)) as [H2|H2]; try done;
    exfalso; rewrite Hperm in H1; done.
Qed.

(** ** Skipping loop iterations that change nothing *)

Lemma for_each_skip {St : Type} (Inv : St → Prop) (P : Z → Prop)
    `{!∀ i, Decision (P i)} (body : Z → St → result St) (l : list Z) :
  (∀ i s s', i ∈ l → Inv s → body i s = Ok s' → Inv s') →
  (∀ i s, i ∈ l → ¬ P i → Inv s → body i s = Ok s) →
  ∀ s, Inv s → for_each (filter P l) body s = for_each l body s.
Proof.
  induction l as [|i l IH]; intros Hinv Hskip s Hs; [done|].
  rewrite filter_cons. destruct (decide (P i)) as [HP|HP]; cbn.
  - destruct (body i s) as [s'|e] eqn:Hb; [|done]. cbn.
    apply IH.
    + intros j t t' Hj. apply Hinv. by right.
    + intros j t Hj. apply Hskip. by right.
    + eapply Hinv; [by left|done..].
  - rewrite (Hskip i s) by first [by left | done]. cbn.
    apply IH; [| |done].
    + intros j t t' Hj. apply Hinv. by right.
    + intros j t Hj. apply Hskip. by right.
Qed.

(** ** The scheduler and the compositor *)

Section Pipeline.

Variable ink : list Z → pixel.
Variables (color1 color2 : Color) (tolerance : Z).

Lemma run_processes_correct (arrival : list Z) (img : Image) (K : Z) :
  wf img → 1 ≤ K → (∀ i, i ∈ arrival → 0 ≤ i < K) →
  run_processes ink arrival img color1 color2 tolerance K =
    Ok ((λ i, (i, region_result ink color1 color2 tolerance img K i))
          <$> arrival).
Proof.
  intros Hwf HK Hin. unfold run_processes. apply mapM_Ok.
  intros i Hi. apply change_color_correct, wf_area; auto.
Qed.

Lemma paste_areas_agree (areas : list Z) (d d' : gmap Z Image) (K : Z) :
  (∀ i, i ∈ areas → d !! i = d' !! i) →
  ∀ img, paste_areas areas d K img = paste_areas areas d' K img.
Proof.
  unfold paste_areas.
  induction areas as [|i areas IH]; intros Hd img; [done|].
  cbn [for_each]. rewrite (Hd i) by left.
  destruct (d' !! i) as [im|]; [|done].
  destruct (paste img im (area img K i)) as [img'|e]; [|done].
  apply IH. intros j Hj. apply Hd. by right.
Qed.

(** With every area's result in the dictionary, pasting the areas in
    order recolours the whole image. *)
Lemma paste_areas_all (d : gmap Z Image) (img : Image) (K : Z) :
  wf img → 1 ≤ K →
  (∀ i, 0 ≤ i < K →
     d !! i = Some (region_result ink color1 color2 tolerance img K i)) →
  paste_areas (range0 K) d K img =
    Ok (map_pixels (recolor ink color1 color2 tolerance) img).
Proof.
  destruct img as [m sz rws]. intros Hwf HK Hd.
  unfold paste_areas, map_pixels. cbn [mode size rows].
  match goal with |- for_each _ ?body _ = _ =>
    pose proof (for_each_range0 body
      (λ i, mkImage m sz
              (partly (recolor ink color1 color2 tolerance)
                 (Z.to_nat (bound sz.1 K i)) 0 rws)) K) as Hloop
  end.
  cbn beta in Hloop. rewrite bound_0, bound_last in Hloop by done.
  change (Z.to_nat 0) with 0%nat in Hloop.
  rewrite partly_start, (partly_end _ m) in Hloop by done.
  apply Hloop; [lia|].
  intros i Hi. rewrite Hd by done. by apply paste_area.
Qed.

(** Pasting only the areas that are not empty gives the same image. *)
Lemma paste_areas_nonempty (d : gmap Z Image) (img : Image) (K : Z) :
  wf img → 1 ≤ K →
  (∀ i, 0 ≤ i < K →
     d !! i = Some (region_result ink color1 color2 tolerance img K i)) →
  paste_areas (nonempty_areas (size img).1 K) d K img =
    paste_areas (range0 K) d K img.
Proof.
  intros Hwf HK Hd. pose proof Hwf as (HW & HH & _).
  unfold paste_areas, nonempty_areas.
  apply (for_each_skip (λ s, size s = size img)); [| |done].
  - intros i s s' _ Hs. destruct (d !! i) as [im|]; [|done].
    intros Hp%paste_size. congruence.
  - intros i s Hi%elem_of_range Hempty Hs. rewrite Hd by done.
    rewrite area_bounds, Hs.
    pose proof (bound_mono (size img).1 K i (i + 1) HW HK).
    unfold area_width in Hempty.
    replace (bound (size img).1 K (i + 1)) with (bound (size img).1 K i)
      by lia.
    apply paste_empty_box. unfold region_result, map_pixels.
    rewrite area_bounds. cbn. do 2 f_equal. lia.
Qed.

(** The whole run, for any order of arrival of the containers. *)
Lemma change_img_correct (arrival : list Z) (img : Image) (K : Z) :
  wf img → 1 ≤ K → arrival ≡ₚ range0 K →
  change_img ink arrival img color1 color2 tolerance K =
    Ok (map_pixels (recolor ink color1 color2 tolerance) img).
Proof.
  intros Hwf HK Hperm. unfold change_img.
  assert (Hin : ∀ i, i ∈ arrival ↔ 0 ≤ i < K).
  { intros i. rewrite Hperm. apply elem_of_range. }
  rewrite run_processes_correct by (done || by intros i ?%Hin). cbn.
  rewrite collect_all; [cbn|lia|].
  - apply paste_areas_all; [done..|].
    intros i Hi. apply unpack_lookup. by apply Hin.
  - rewrite length_fmap, Hperm. unfold range0, range.
    rewrite length_seqZ. lia.
Qed.

(** The run restricted to the areas that are not empty. *)
Lemma change_img_only_nonempty (arrival : list Z) (img : Image) (K : Z) :
  wf img → 1 ≤ K → arrival ≡ₚ nonempty_areas (size img).1 K →
  change_img_only ink (nonempty_areas (size img).1 K) arrival img
    color1 color2 tolerance K =
    Ok (map_pixels (recolor ink color1 color2 tolerance) img).
Proof.
  intros Hwf HK Hperm. unfold change_img_only.
  assert (Hin : ∀ i, i ∈ arrival → 0 ≤ i < K).
  { intros i. rewrite Hperm. unfold nonempty_areas, range0.
    rewrite list_elem_of_filter, elem_of_range. tauto. }
  rewrite run_processes_correct by done. cbn.
  rewrite collect_all; [cbn|lia|].
  - rewrite (paste_areas_agree _ _
      (unpack ((λ i, (i, region_result ink color1 color2 tolerance img K i))
                 <$> range0 K))).
    + rewrite paste_areas_nonempty; [|done..|].
      * apply paste_areas_all; [done..|].
        intros i Hi. apply unpack_lookup. by apply elem_of_range.
      * intros i Hi. apply unpack_lookup. by apply elem_of_range.
    + intros i Hi. rewrite <- Hperm in Hi.
      rewrite !unpack_lookup; [done| |done].
      apply elem_of_range. auto.
  - rewrite length_fmap, Hperm. lia.
Qed.

End Pipeline.

(** ** Recolouring that changes nothing *)

Lemma map_pixels_id (g : pixel → pixel) (img : Image) :
  (∀ x y row p, rows img !! y = Some row → row !! x = Some p → g p = p) →
  map_pixels g img = img.
Proof.
  intros Hg. destruct img as [m sz rws]. unfold map_pixels.
  cbn [mode size rows] in *. f_equal.
  rewrite grid_fmap. rewrite <- (grid_id rws) at 2.
  apply grid_ext. eauto.
Qed.

Lemma map_pixels_empty (g : pixel → pixel) (img : Image) :
  wf img → (size img).1 = 0 → map_pixels g img = img.
Proof.
  intros Hwf HW. apply map_pixels_id. intros x y row p Hrow Hp.
  destruct (wf_inside _ _ _ _ _ Hwf Hrow Hp) as (Hx & _). lia.
Qed.

Lemma check_pixel_nonpositive (v : Z) (rest : list Z) (color : Color)
    (tolerance : Z) :
  tolerance ≤ 0 → check_pixel (v :: rest) color tolerance = Ok false.
Proof.
  intros Htol. unfold check_pixel, py_and, item. cbn.
  by rewrite py_in_range_empty by lia.
Qed.

Lemma recolor_nonpositive (ink : list Z → pixel) (color1 color2 : Color)
    (tolerance : Z) (p : pixel) :
  tolerance ≤ 0 → recolor ink color1 color2 tolerance p = p.
Proof.
  intros Htol. unfold recolor. destruct p as [|v rest]; [done|].
  by rewrite check_pixel_nonpositive.
Qed.

Lemma getpixel_map_pixels (g : pixel → pixel) (img : Image) (xy : Z * Z)
    (p : pixel) :
  getpixel img xy = Ok p → getpixel (map_pixels g img) xy = Ok (g p).
Proof.
  unfold getpixel. rewrite px_map_pixels.
  change (in_image (map_pixels g img)) with (in_image img).
  destruct (in_image img xy.1 xy.2); [|done].
  destruct (px img (Z.to_nat xy.1) (Z.to_nat xy.2)); [|done].
  by intros [= ->].
Qed.

(** * The claims *)

(** ** The end-to-end scenario *)

(** C1, as stated, fails: at tolerance 0 the run does not produce the
    expected recoloured image, in either order of arrival of the two
    containers. *)
Lemma C1_tolerance_0_not_recoloured :
  change_img ink8 [0; 1] scenario_image scenario_from scenario_to 0 2
    ≠ Ok scenario_expected ∧
  change_img ink8 [1; 0] scenario_image scenario_from scenario_to 0 2
    ≠ Ok scenario_expected.
Proof. split; vm_compute; discriminate. Qed.

(** C1, amended: on the scenario's image, colours and two workers, the run
    at tolerance 0 returns the input image unchanged, and the run at
    tolerance 1 returns the image whose first and third pixels are what the
    library stores for (200, 50, 0, 255); both for either order of arrival
    and whatever the library's conversion. *)
Theorem C1_scenario (ink : list Z → pixel) :
  change_img ink [0; 1] scenario_image scenario_from scenario_to 0 2
    = Ok scenario_image ∧
  change_img ink [1; 0] scenario_image scenario_from scenario_to 0 2
    = Ok scenario_image ∧
  change_img ink [0; 1] scenario_image scenario_from scenario_to 1 2
    = Ok (mkImage RGBA (4, 1)
            [[ink [200; 50; 0; 255]; [10; 10; 10; 255];
              ink [200; 50; 0; 255]; [0; 0; 0; 255]]]) ∧
  change_img ink [1; 0] scenario_image scenario_from scenario_to 1 2
    = Ok (mkImage RGBA (4, 1)
            [[ink [200; 50; 0; 255]; [10; 10; 10; 255];
              ink [200; 50; 0; 255]; [0; 0; 0; 255]]]).
Proof. repeat split; vm_compute; reflexivity. Qed.

(** With channels clipped to [0, 255], tolerance 1 gives the image the
    scenario expects. *)
Example scenario_tolerance_1 :
  change_img ink8 [0; 1] scenario_image scenario_from scenario_to 1 2
    = Ok scenario_expected.
Proof. reflexivity. Qed.

(** At tolerance 20 the pixel (10, 10, 10) still does not match. *)
Example scenario_tolerance_20 :
  change_img ink8 [1; 0] scenario_image scenario_from scenario_to 20 2
    = Ok scenario_expected.
Proof. reflexivity. Qed.

(** ** The matcher *)

(** C2: on a pixel with red, green and blue channels the matcher answers
    true exactly when each of the three lies in the half-open interval
    from target - tolerance (included) to target + tolerance (excluded),
    for every tolerance and so for every non-negative one, with no clamping
    to 0..255; neither the pixel's further channels (alpha) nor the
    colour's alpha enter the answer. *)
Theorem C2_check_pixel_half_open (r g b : Z) (alpha : list Z) (color : Color)
    (tolerance : Z) :
  check_pixel (r :: g :: b :: alpha) color tolerance =
    Ok (bool_decide
          ((c0 color - tolerance ≤ r < c0 color + tolerance) ∧
           (c1 color - tolerance ≤ g < c1 color + tolerance) ∧
           (c2 color - tolerance ≤ b < c2 color + tolerance))).
Proof. apply check_pixel_channels. Qed.

(** C10: at a tolerance of 0 or less the matcher answers false on every
    pixel that has a first channel, whatever the target colour, and the
    whole run is the identity on every well-formed image: no pixel is
    transformed, not even one equal to the colour to replace. *)
Theorem C10_tolerance_0_identity (tolerance : Z) :
  tolerance ≤ 0 →
  (∀ (v : Z) (rest : list Z) (color : Color),
     check_pixel (v :: rest) color tolerance = Ok false) ∧
  (∀ (ink : list Z → pixel) (arrival : list Z) (img : Image)
     (color1 color2 : Color) (K : Z),
     wf img → 1 ≤ K → arrival ≡ₚ range0 K →
     change_img ink arrival img color1 color2 tolerance K = Ok img).
Proof.
  intros Htol. split.
  - intros v rest color. by apply check_pixel_nonpositive.
  - intros ink arrival img color1 color2 K Hwf HK Hperm.
    rewrite change_img_correct by done. f_equal.
    apply map_pixels_id. intros x y row p _ _.
    by apply recolor_nonpositive.
Qed.

Lemma wf_scenario_image : wf scenario_image.
Proof. unfold wf; cbn. repeat split; try lia; repeat constructor. Defined.

Lemma C10_tolerance_0_identity_witness :
  check_pixel [100; 100; 100; 255] scenario_from 0 = Ok false ∧
  change_img ink8 [1; 0] scenario_image scenario_from scenario_to 0 2
    = Ok scenario_image.
Proof.
  destruct (C10_tolerance_0_identity 0) as [Hmatch Hrun]; [lia|].
  split; [apply Hmatch|].
  apply Hrun; [apply wf_scenario_image|lia|vm_compute; apply perm_swap].
Defined.

(** ** The transformer *)

(** C3: each of the red, green and blue channels becomes
    to + pixel - from, unclamped; a fourth channel is returned unchanged,
    and a 3-channel pixel gives a 3-channel result. *)
Theorem C3_change_pixel_offset (r g b : Z) (color1 color2 : Color) :
  (∀ a, change_pixel [r; g; b; a] color1 color2 =
          Ok [c0 color2 + r - c0 color1; c1 color2 + g - c1 color1;
              c2 color2 + b - c2 color1; a]) ∧
  change_pixel [r; g; b] color1 color2 =
    Ok [c0 color2 + r - c0 color1; c1 color2 + g - c1 color1;
        c2 color2 + b - c2 color1].
Proof. split; reflexivity. Qed.

(** ** The run on whole images *)

(** C4: a pixel of a well-formed image that the matcher rejects is the same
    in the output of the run, for every number of workers and order of
    arrival; and the worker's visit of a rejected pixel returns its region
    as it is, without calling the transformer. *)
Theorem C4_unmatched_pixel_unchanged (ink : list Z → pixel)
    (arrival : list Z) (img : Image) (color1 color2 : Color)
    (tolerance K x y : Z) (p : pixel) :
  wf img → 1 ≤ K → arrival ≡ₚ range0 K →
  getpixel img (x, y) = Ok p →
  check_pixel p color1 tolerance = Ok false →
  (∃ out, change_img ink arrival img color1 color2 tolerance K = Ok out ∧
          getpixel out (x, y) = Ok p) ∧
  visit ink img color1 color2 tolerance x y = Ok img.
Proof.
  intros Hwf HK Hperm Hget Hcheck. split.
  - eexists. split; [by apply change_img_correct|].
    rewrite (getpixel_map_pixels _ _ _ _ Hget).
    unfold recolor. by rewrite Hcheck.
  - unfold visit. rewrite Hget. cbn. by rewrite Hcheck.
Qed.

Lemma C4_unmatched_pixel_unchanged_witness :
  (∃ out, change_img ink8 [1; 0] scenario_image scenario_from scenario_to
            20 2 = Ok out ∧
          getpixel out (1, 0) = Ok [10; 10; 10; 255]) ∧
  visit ink8 scenario_image scenario_from scenario_to 20 1 0
    = Ok scenario_image.
Proof.
  apply C4_unmatched_pixel_unchanged;
    [apply wf_scenario_image|lia|vm_compute; apply perm_swap
    |reflexivity|reflexivity].
Defined.

(** C9: on a well-formed image, any two orders in which the workers'
    containers arrive give the same dictionary of areas, filed under the
    area numbers, and the same composited image; the run succeeds for
    both. *)
Theorem C9_arrival_order_irrelevant (ink : list Z → pixel)
    (arrival1 arrival2 : list Z) (img : Image) (color1 color2 : Color)
    (tolerance K : Z) :
  wf img → 1 ≤ K → arrival1 ≡ₚ range0 K → arrival2 ≡ₚ range0 K →
  ∃ q1 q2 crop_dict out,
    run_processes ink arrival1 img color1 color2 tolerance K = Ok q1 ∧
    run_processes ink arrival2 img color1 color2 tolerance K = Ok q2 ∧
    collect K q1 = Ok (crop_dict, []) ∧
    collect K q2 = Ok (crop_dict, []) ∧
    change_img ink arrival1 img color1 color2 tolerance K = Ok out ∧
    change_img ink arrival2 img color1 color2 tolerance K = Ok out.
Proof.
  intros Hwf HK H1 H2.
  assert (Hin : ∀ arrival, arrival ≡ₚ range0 K →
            ∀ i, i ∈ arrival → 0 ≤ i < K).
  { intros arrival Hperm i. rewrite Hperm. apply elem_of_range. }
  assert (Hlen : ∀ arrival, arrival ≡ₚ range0 K →
            length arrival = Z.to_nat K).
  { intros arrival ->. unfold range0, range. rewrite length_seqZ. lia. }
  do 4 eexists. split_and!.
  - apply run_processes_correct; eauto.
  - apply run_processes_correct; eauto.
  - apply collect_all; [lia|]. rewrite length_fmap. auto.
  - rewrite (unpack_perm _ arrival1 arrival2) by (by rewrite H1, H2).
    apply collect_all; [lia|]. rewrite length_fmap. auto.
  - by apply change_img_correct.
  - by apply change_img_correct.
Qed.

Lemma C9_arrival_order_irrelevant_witness :
  ∃ q1 q2 crop_dict out,
    run_processes ink8 [0; 1] scenario_image scenario_from scenario_to 1 2
      = Ok q1 ∧
    run_processes ink8 [1; 0] scenario_image scenario_from scenario_to 1 2
      = Ok q2 ∧
    collect 2 q1 = Ok (crop_dict, []) ∧
    collect 2 q2 = Ok (crop_dict, []) ∧
    change_img ink8 [0; 1] scenario_image scenario_from scenario_to 1 2
      = Ok out ∧
    change_img ink8 [1; 0] scenario_image scenario_from scenario_to 1 2
      = Ok out.
Proof.
  apply C9_arrival_order_irrelevant;
    [apply wf_scenario_image|lia|vm_compute; reflexivity
    |vm_compute; apply perm_swap].
Defined.

(** C8: eight workers on a well-formed image 4 pixels wide.  Four of the
    eight areas have width 0.  The worker of an empty area returns its
    (empty) region without an error, and pasting that region over an
    image of the same size changes nothing.  The run succeeds, and its
    output is the output of the run restricted to the four areas that are
    not empty.  The widths are those of the boxes [area] computes, and of
    the regions cropped from them. *)
Theorem C8_empty_areas (ink : list Z → pixel) (arrival arrival' : list Z)
    (img : Image) (color1 color2 : Color) (tolerance : Z) :
  wf img → (size img).1 = 4 →
  arrival ≡ₚ range0 8 → arrival' ≡ₚ [1; 3; 5; 7] →
  (λ i, box_right (area img 8 i) - box_left (area img 8 i)) <$> range0 8
    = [0; 1; 0; 1; 0; 1; 0; 1] ∧
  (∀ i, i ∈ [0; 2; 4; 6] →
     (size (crop img (area img 8 i))).1 = 0 ∧
     change_color ink i (crop img (area img 8 i)) color1 color2 tolerance
       = Ok (i, crop img (area img 8 i)) ∧
     ∀ base, size base = size img →
       paste base (crop img (area img 8 i)) (area base 8 i) = Ok base) ∧
  ∃ out,
    change_img ink arrival img color1 color2 tolerance 8 = Ok out ∧
    change_img_only ink [1; 3; 5; 7] arrival' img color1 color2 tolerance 8
      = Ok out.
Proof.
  intros Hwf HW Hperm Hperm'. split_and!.
  - change (range0 8) with [0; 1; 2; 3; 4; 5; 6; 7].
    cbn [fmap list_fmap]. rewrite !area_bounds, HW. reflexivity.
  - intros i Hi.
    assert (0 ≤ i < 8 ∧ area_width 4 8 i = 0) as [Hi8 Hempty].
    { repeat (apply elem_of_cons in Hi as [->|Hi]); [by split; [lia|]..|].
      by apply elem_of_nil in Hi. }
    split_and!.
    + rewrite area_bounds, HW. exact Hempty.
    + rewrite change_color_correct by (apply wf_area; [done|lia|done]).
      rewrite map_pixels_empty; [done|apply wf_area; [done|lia|done]|].
      rewrite area_bounds, HW. exact Hempty.
    + intros base Hbase. rewrite !area_bounds, Hbase, HW.
      unfold area_width in Hempty.
      replace (bound 4 8 (i + 1)) with (bound 4 8 i) by lia.
      apply paste_empty_box. cbn. f_equal; lia.
  - eexists. split; [by apply change_img_correct|].
    replace [1; 3; 5; 7] with (nonempty_areas (size img).1 8)
      by (by rewrite HW).
    apply change_img_only_nonempty; [done|lia|].
    by rewrite HW.
Qed.

Lemma C8_empty_areas_witness :
  (λ i, box_right (area scenario_image 8 i)
        - box_left (area scenario_image 8 i)) <$> range0 8
    = [0; 1; 0; 1; 0; 1; 0; 1] ∧
  (∀ i, i ∈ [0; 2; 4; 6] →
     (size (crop scenario_image (area scenario_image 8 i))).1 = 0 ∧
     change_color ink8 i (crop scenario_image (area scenario_image 8 i))
       scenario_from scenario_to 1
       = Ok (i, crop scenario_image (area scenario_image 8 i)) ∧
     ∀ base, size base = (4, 1) →
       paste base (crop scenario_image (area scenario_image 8 i))
         (area base 8 i) = Ok base) ∧
  ∃ out,
    change_img ink8 [1; 0; 2; 3; 4; 5; 6; 7] scenario_image
      scenario_from scenario_to 1 8 = Ok out ∧
    change_img_only ink8 [1; 3; 5; 7] [3; 1; 5; 7] scenario_image
      scenario_from scenario_to 1 8 = Ok out.
Proof.
  apply (C8_empty_areas ink8 [1; 0; 2; 3; 4; 5; 6; 7] [3; 1; 5; 7]
           scenario_image scenario_from scenario_to 1);
    [apply wf_scenario_image|reflexivity|vm_compute; apply perm_swap
    |apply perm_swap].
Defined.

(** ** The command-line checks *)

Section Checks.

Variable int : string → option Z.

Lemma core_count_check_int (argv : list string) (a : string) (n : Z) :
  argv !! 1%nat = Some a → int a = Some n →
  core_count_check int argv =
    if n >=? 1 then Ok n else Raise (SystemExit 1).
Proof.
  intros Ha Hn. unfold core_count_check, arg, py_int.
  rewrite Ha. cbn. rewrite Hn. cbn. by destruct (n >=? 1).
Qed.

(** Whatever the first argument is, the first block of [parse_parameters]
    either leaves a count of at least 1 or exits. *)
Lemma core_count_check_cases (argv : list string) (a : string) :
  argv !! 1%nat = Some a →
  core_count_check int argv = Raise (SystemExit 1) ∨
  ∃ n, 1 ≤ n ∧ core_count_check int argv = Ok n.
Proof.
  intros Ha. destruct (int a) as [n|] eqn:Hn.
  - rewrite (core_count_check_int _ _ _ Ha Hn).
    destruct (Z.geb_spec n 1); [right; eauto|by left].
  - left. unfold core_count_check, arg, py_int. by rewrite Ha; cbn; rewrite Hn.
Qed.

Lemma tolerance_arg_above (argv : list string) (i : nat) (a : string)
    (t : Z) :
  length argv = S i → argv !! i = Some a → int a = Some t → 255 < t →
  tolerance_arg int argv i = Raise (SystemExit 1).
Proof.
  intros Hlen Ha Ht Hbig. unfold tolerance_arg, arg, py_int.
  rewrite bool_decide_eq_true_2 by done. rewrite Ha. cbn. rewrite Ht. cbn.
  destruct (Z.gtb_spec t 255); [done|lia].
Qed.

End Checks.

Local Open Scope string_scope.
Local Open Scope Z_scope.

(** C7: when the first argument reads as a count below 1 the first block of
    the parser exits, and so does the parser, before anything else is looked
    at; when it reads as a count of at least 1 that block passes and leaves
    the count. *)
Theorem C7_core_count_check (int : string → option Z) (argv : list string)
    (a : string) (n : Z) :
  argv !! 1%nat = Some a → int a = Some n →
  (n < 1 →
     core_count_check int argv = Raise (SystemExit 1) ∧
     parse_parameters int argv = Raise (SystemExit 1)) ∧
  (1 ≤ n → core_count_check int argv = Ok n).
Proof.
  intros Ha Hn. pose proof (core_count_check_int int argv a n Ha Hn) as Hc.
  split; intros Hlt.
  - destruct (Z.geb_spec n 1); [lia|].
    split; [done|]. unfold parse_parameters. by rewrite Hc.
  - destruct (Z.geb_spec n 1); [done|lia].
Qed.

Lemma C7_core_count_check_witness :
  (core_count_check int_decimal
     ["ColorEdit.py"; "0"; "I"; "image.png"; "red"; "blue"]
     = Raise (SystemExit 1) ∧
   parse_parameters int_decimal
     ["ColorEdit.py"; "0"; "I"; "image.png"; "red"; "blue"]
     = Raise (SystemExit 1)) ∧
  core_count_check int_decimal
    ["ColorEdit.py"; "4"; "I"; "image.png"; "red"; "blue"] = Ok 4.
Proof.
  split.
  - apply (C7_core_count_check int_decimal _ "0" 0);
      [reflexivity|reflexivity|lia].
  - apply (C7_core_count_check int_decimal _ "4" 4);
      [reflexivity|reflexivity|lia].
Defined.

(** C6, as stated, fails: a negative tolerance is outside 0..255, yet the
    parser returns it, and the engine then runs on the image. *)
Lemma C6_negative_tolerance_accepted :
  parse_parameters int_decimal
    ["ColorEdit.py"; "2"; "I"; "image.png"; "100,100,100,255";
     "200,50,0,255"; "-5"]
    = Ok (SingleImage "image.png" "100,100,100,255" "200,50,0,255" (-5) 2) ∧
  ¬ (0 ≤ -5 ≤ 255) ∧
  change_img ink8 [0; 1] scenario_image scenario_from scenario_to (-5) 2
    = Ok scenario_image.
Proof. split_and!; [reflexivity|lia|reflexivity]. Qed.

(** C6, amended: when the tolerance argument is present (seventh argument
    for a single image, eighth for a directory) and reads as a number
    above 255, the parser exits with the usage error instead of returning
    parameters. *)
Theorem C6_tolerance_above_255 (int : string → option Z)
    (argv : list string) (flag a : string) (t : Z) :
  argv !! 2%nat = Some flag →
  ((flag = "I" ∨ flag = "i") ∧ length argv = 7%nat ∧ argv !! 6%nat = Some a) ∨
  ((flag = "D" ∨ flag = "d") ∧ length argv = 8%nat ∧ argv !! 7%nat = Some a) →
  int a = Some t → 255 < t →
  parse_parameters int argv = Raise (SystemExit 1).
Proof.
  intros Hflag Hcase Ht Hbig.
  destruct argv as [|a0 [|a1 [|a2 [|a3 [|a4 [|a5 [|a6 [|a7 [|a8 rest]]]]]]]]];
    try (destruct Hcase as [(_ & Hlen & _)|(_ & Hlen & _)]; discriminate Hlen).
  all: injection Hflag as ->.
  all: unfold parse_parameters.
  all: match goal with |- context [core_count_check ?f ?l] =>
         destruct (core_count_check_cases f l a1 eq_refl)
           as [->|(n & Hn & ->)]; [done|]
       end.
  all: destruct Hcase as [([-> | ->] & Hlen & Ha)|([-> | ->] & Hlen & Ha)];
         try discriminate Hlen.
  all: cbn [mbind result_bind arg lookup list_lookup length].
  all: rewrite (tolerance_arg_above _ _ _ a t Hlen Ha Ht Hbig).
  all: reflexivity.
Qed.

Lemma C6_tolerance_above_255_witness :
  parse_parameters int_decimal
    ["ColorEdit.py"; "2"; "I"; "image.png"; "red"; "blue"; "256"]
    = Raise (SystemExit 1).
Proof.
  apply (C6_tolerance_above_255 int_decimal _ "I" "256" 256);
    [reflexivity|left; split_and!; [by left|reflexivity..]|reflexivity|lia].
Defined.

(** * Further properties of the engine *)

Lemma change_pixel_take (r g b : Z) (alpha : list Z) (color1 color2 : Color) :
  change_pixel (r :: g :: b :: alpha) color1 color2 =
    Ok (c0 color2 + r - c0 color1 :: c1 color2 + g - c1 color1 ::
        c2 color2 + b - c2 color1 :: take 1 alpha).
Proof. by destruct alpha. Qed.

Lemma map_pixels_same_shape (g : pixel → pixel) (img : Image) :
  same_shape (map_pixels g img) img.
Proof.
  unfold same_shape, map_pixels. cbn [mode size rows].
  split_and!; [done|done|by rewrite length_fmap|].
  intros y row row' Hrow. rewrite list_lookup_fmap, Hrow. cbn.
  intros [= <-]. by rewrite length_fmap.
Qed.

Lemma recolor_length (ink : list Z → pixel) (color1 color2 : Color)
    (tolerance : Z) (m : Mode) (p : pixel) :
  (∀ value, length (ink value) = length value) →
  length p = bands m →
  length (recolor ink color1 color2 tolerance p) = bands m.
Proof.
  intros Hink Hlen. destruct (bands_channels _ _ Hlen) as (r & g & b & alpha & ->).
  unfold recolor. destruct (check_pixel _ _ _) as [[|]|]; [|done..].
  rewrite change_pixel_take, Hink. cbn in *.
  destruct m, alpha as [|a [|a' alpha]]; cbn in *; lia.
Qed.

(** X1: a pixel of a well-formed image that the matcher accepts holds, in
    the output of the run, what the library stores for the transformed
    tuple: each of red, green and blue moved by (to - from), and the alpha
    channel, when there is one, as it was. *)
Theorem X1_matched_pixel_transformed (ink : list Z → pixel)
    (arrival : list Z) (img : Image) (color1 color2 : Color)
    (tolerance K x y r g b : Z) (alpha : list Z) :
  wf img → 1 ≤ K → arrival ≡ₚ range0 K →
  getpixel img (x, y) = Ok (r :: g :: b :: alpha) →
  check_pixel (r :: g :: b :: alpha) color1 tolerance = Ok true →
  ∃ out,
    change_img ink arrival img color1 color2 tolerance K = Ok out ∧
    getpixel out (x, y) =
      Ok (ink (c0 color2 + r - c0 color1 :: c1 color2 + g - c1 color1 ::
               c2 color2 + b - c2 color1 :: take 1 alpha)).
Proof.
  intros Hwf HK Hperm Hget Hcheck. eexists.
  split; [by apply change_img_correct|].
  rewrite (getpixel_map_pixels _ _ _ _ Hget).
  unfold recolor. by rewrite Hcheck, change_pixel_take.
Qed.

Lemma X1_matched_pixel_transformed_witness :
  ∃ out,
    change_img ink8 [1; 0] scenario_image scenario_from scenario_to 1 2
      = Ok out ∧
    getpixel out (2, 0) =
      Ok (ink8 (200 + 100 - 100 :: 50 + 100 - 100 :: 0 + 100 - 100 ::
                take 1 [255])).
Proof.
  apply (X1_matched_pixel_transformed ink8 [1; 0] scenario_image
           scenario_from scenario_to 1 2 2 0 100 100 100 [255]);
    [apply wf_scenario_image|lia|vm_compute; apply perm_swap
    |reflexivity|reflexivity].
Defined.

(** X2: the run keeps the image's mode, size and shape for every
    conversion of the library, and keeps it well-formed when the
    conversion returns as many channels as it is given. *)
Theorem X2_run_keeps_image_shape (ink : list Z → pixel) (arrival : list Z)
    (img : Image) (color1 color2 : Color) (tolerance K : Z) :
  wf img → 1 ≤ K → arrival ≡ₚ range0 K →
  ∃ out,
    change_img ink arrival img color1 color2 tolerance K = Ok out ∧
    same_shape out img ∧
    ((∀ value, length (ink value) = length value) → wf out).
Proof.
  intros Hwf HK Hperm. eexists.
  split; [by apply change_img_correct|].
  split; [apply map_pixels_same_shape|].
  intros Hink. destruct Hwf as (HW & HH & Hlen & Hrows).
  unfold wf, map_pixels. cbn [mode size rows].
  split_and!; [done|done|by rewrite length_fmap|].
  apply Forall_fmap. eapply Forall_impl; [exact Hrows|].
  intros row [Hrl Hps]. cbn. split; [by rewrite length_fmap|].
  apply Forall_fmap. eapply Forall_impl; [exact Hps|].
  intros p Hp. cbn. by apply recolor_length.
Qed.

Lemma ink8_length (value : list Z) : length (ink8 value) = length value.
Proof. unfold ink8. apply length_fmap. Defined.

Lemma X2_run_keeps_image_shape_witness :
  ∃ out,
    change_img ink8 [1; 0] scenario_image scenario_from scenario_to 1 2
      = Ok out ∧
    same_shape out scenario_image ∧ wf out.
Proof.
  destruct (X2_run_keeps_image_shape ink8 [1; 0] scenario_image
              scenario_from scenario_to 1 2)
    as (out & Hrun & Hshape & Hwf);
    [apply wf_scenario_image|lia|vm_compute; apply perm_swap|].
  exists out. split_and!; [done|done|apply Hwf, ink8_length].
Defined.

(** X3: the number of processes does not change the result: on a
    well-formed image the run with any number of processes, in any order of
    arrival, returns what the run with a single process returns. *)
Theorem X3_core_count_irrelevant (ink : list Z → pixel) (arrival : list Z)
    (img : Image) (color1 color2 : Color) (tolerance K : Z) :
  wf img → 1 ≤ K → arrival ≡ₚ range0 K →
  ∃ out,
    change_img ink arrival img color1 color2 tolerance K = Ok out ∧
    change_img ink [0] img color1 color2 tolerance 1 = Ok out.
Proof.
  intros Hwf HK Hperm. eexists.
  split; by apply change_img_correct.
Qed.

Lemma X3_core_count_irrelevant_witness :
  ∃ out,
    change_img ink8 [2; 0; 1] scenario_image scenario_from scenario_to 1 3
      = Ok out ∧
    change_img ink8 [0] scenario_image scenario_from scenario_to 1 1
      = Ok out.
Proof.
  apply (X3_core_count_irrelevant ink8 [2; 0; 1] scenario_image);
    [apply wf_scenario_image|lia|].
  vm_compute. etrans; [apply perm_swap|]. apply perm_skip, perm_swap.
Defined.

(** X4: the region worker's contract: on a well-formed region the worker
    raises nothing and sends back its own counter with the region in which
    every accepted pixel is replaced by the stored transform and every
    other pixel is as it was. *)
Theorem X4_worker_contract (ink : list Z → pixel) (counter : Z)
    (img : Image) (color1 color2 : Color) (tolerance : Z) :
  wf img →
  change_color ink counter img color1 color2 tolerance =
    Ok (counter, map_pixels (recolor ink color1 color2 tolerance) img).
Proof. apply change_color_correct. Qed.

Lemma X4_worker_contract_witness :
  change_color ink8 7 scenario_image scenario_from scenario_to 1 =
    Ok (7, map_pixels (recolor ink8 scenario_from scenario_to 1)
             scenario_image).
Proof. apply X4_worker_contract, wf_scenario_image. Defined.

(** X5: widening the tolerance never loses a match: a pixel the matcher
    accepts at one tolerance is accepted at every larger one. *)
Theorem X5_tolerance_monotone (p : pixel) (color : Color) (t t' : Z) :
  check_pixel p color t = Ok true → t ≤ t' →
  check_pixel p color t' = Ok true.
Proof.
  intros Hcheck Hle.
  destruct p as [|r [|g [|b alpha]]].
  - discriminate Hcheck.
  - unfold check_pixel, py_and, item in Hcheck. cbn in Hcheck.
    by destruct (py_in _ _).
  - unfold check_pixel, py_and, item in Hcheck. cbn in Hcheck.
    by repeat destruct (py_in _ _).
  - rewrite check_pixel_channels in *. injection Hcheck as Hcheck.
    apply bool_decide_eq_true in Hcheck. f_equal.
    apply bool_decide_eq_true. lia.
Qed.

Lemma X5_tolerance_monotone_witness :
  check_pixel [100; 90; 80; 255] scenario_from 70 = Ok true.
Proof.
  apply (X5_tolerance_monotone _ _ 21 70); [reflexivity|lia].
Defined.

(** X6: pixels with fewer than three channels.  The transformer raises
    IndexError on them.  The matcher stops at the first channel outside
    its interval and answers false; it raises IndexError only when every
    channel the pixel has lies inside its interval. *)
Theorem X6_short_pixels (color color' : Color) (tolerance r g : Z) :
  change_pixel [] color color' = Raise IndexError ∧
  change_pixel [r] color color' = Raise IndexError ∧
  change_pixel [r; g] color color' = Raise IndexError ∧
  check_pixel [] color tolerance = Raise IndexError ∧
  check_pixel [r] color tolerance =
    (if bool_decide (c0 color - tolerance ≤ r < c0 color + tolerance)
     then Raise IndexError else Ok false) ∧
  check_pixel [r; g] color tolerance =
    (if bool_decide ((c0 color - tolerance ≤ r < c0 color + tolerance) ∧
                     (c1 color - tolerance ≤ g < c1 color + tolerance))
     then Raise IndexError else Ok false).
Proof.
  split_and!; try reflexivity.
  - unfold check_pixel, py_and, item. cbn. rewrite py_in_range.
    by case_bool_decide.
  - unfold check_pixel, py_and, item. cbn. rewrite !py_in_range.
    repeat case_bool_decide; cbn; try done; tauto.
Qed.

(** X7: the largest tolerance the command line accepts does not match
    every pixel: with all channels in 0..255 and tolerance 255, a pixel is
    rejected exactly when one of its channels is 255 where the target's
    is 0. *)
Theorem X7_tolerance_255 (r g b : Z) (alpha : list Z) (color : Color) :
  0 ≤ r ≤ 255 → 0 ≤ g ≤ 255 → 0 ≤ b ≤ 255 →
  0 ≤ c0 color ≤ 255 → 0 ≤ c1 color ≤ 255 → 0 ≤ c2 color ≤ 255 →
  check_pixel (r :: g :: b :: alpha) color 255 =
    Ok (bool_decide (¬ (r = 255 ∧ c0 color = 0) ∧
                     ¬ (g = 255 ∧ c1 color = 0) ∧
                     ¬ (b = 255 ∧ c2 color = 0))).
Proof.
  intros. rewrite check_pixel_channels. f_equal.
  apply bool_decide_ext. lia.
Qed.

Lemma X7_tolerance_255_witness :
  check_pixel [255; 255; 255; 255] (mkColor 0 0 0 255) 255 =
    Ok (bool_decide (¬ (255 = 255 ∧ c0 (mkColor 0 0 0 255) = 0) ∧
                     ¬ (255 = 255 ∧ c1 (mkColor 0 0 0 255) = 0) ∧
                     ¬ (255 = 255 ∧ c2 (mkColor 0 0 0 255) = 0))).
Proof. apply X7_tolerance_255; cbn; lia. Defined.

Lemma area_width_balanced (W K i : Z) :
  1 ≤ K → W / K ≤ area_width W K i ≤ W / K + 1.
Proof.
  intros HK. unfold area_width, bound.
  pose proof (Z.div_mod (i * W) K ltac:(lia)).
  pose proof (Z.mod_pos_bound (i * W) K ltac:(lia)).
  pose proof (Z.div_mod ((i + 1) * W) K ltac:(lia)).
  pose proof (Z.mod_pos_bound ((i + 1) * W) K ltac:(lia)).
  pose proof (Z.div_mod W K ltac:(lia)).
  pose proof (Z.mod_pos_bound W K ltac:(lia)).
  nia.
Qed.

(** X8: the areas are balanced: for every image of width W and every
    K >= 1, the box [area img K i] that [change_img] crops and pastes, and
    the region cropped from it, are W // K or W // K + 1 columns wide. *)
Theorem X8_area_widths_balanced (img : Image) (K i : Z) :
  1 ≤ K →
  (size img).1 / K
    ≤ box_right (area img K i) - box_left (area img K i)
    ≤ (size img).1 / K + 1 ∧
  (size (crop img (area img K i))).1
    = box_right (area img K i) - box_left (area img K i).
Proof.
  intros HK. rewrite !area_bounds. cbn.
  split; [|done]. by apply area_width_balanced.
Qed.

Lemma X8_area_widths_balanced_witness :
  4 / 3
    ≤ box_right (area scenario_image 3 1) - box_left (area scenario_image 3 1)
    ≤ 4 / 3 + 1 ∧
  (size (crop scenario_image (area scenario_image 3 1))).1
    = box_right (area scenario_image 3 1) - box_left (area scenario_image 3 1).
Proof. apply (X8_area_widths_balanced scenario_image 3 1). lia. Defined.

(** ** The collector and the compositor *)

Lemma collect_loop (n : nat) :
  ∀ (a : Z) (d : gmap Z Image) (q : list (Z * Image)),
  for_each (seqZ a (Z.of_nat n))
    (λ _ st, '(container, q') ← q_get st.2;
             Ok (<[container.1 := container.2]> st.1, q')) (d, q) =
    if decide (n ≤ length q)%nat
    then Ok (foldl (λ d c, <[c.1 := c.2]> d) d (take n q), drop n q)
    else Raise Blocked.
Proof.
  induction n as [|n IH]; intros a d q.
  - cbn. rewrite decide_True by lia. by rewrite drop_0.
  - rewrite seqZ_cons by lia. cbn [for_each].
    replace (Z.pred (Z.of_nat (S n))) with (Z.of_nat n) by lia.
    destruct q as [|c q]; cbn.
    + rewrite decide_False by lia. done.
    + rewrite IH. destruct (decide (n ≤ length q)%nat).
      * rewrite decide_True by lia. done.
      * rewrite decide_False by lia. done.
Qed.

(** X9: the collector takes exactly one container per process from the
    queue: with fewer containers than processes it waits for ever, and
    otherwise it files the first core_count containers under their
    counters and leaves the others in the queue. *)
Theorem X9_collect_one_per_process (K : Z) (q : list (Z * Image)) :
  0 ≤ K →
  (Z.of_nat (length q) < K → collect K q = Raise Blocked) ∧
  (K ≤ Z.of_nat (length q) →
     collect K q = Ok (unpack (take (Z.to_nat K) q), drop (Z.to_nat K) q)).
Proof.
  intros HK. unfold collect, range0, range.
  replace (K - 0) with (Z.of_nat (Z.to_nat K)) by lia.
  rewrite collect_loop. split; intros Hlen.
  - rewrite decide_False by lia. done.
  - rewrite decide_True by lia. done.
Qed.

Lemma X9_collect_one_per_process_witness :
  collect 2 [(0, scenario_image)] = Raise Blocked ∧
  collect 1 [(0, scenario_image); (1, scenario_expected)] =
    Ok (unpack (take (Z.to_nat 1) [(0, scenario_image); (1, scenario_expected)]),
        drop (Z.to_nat 1) [(0, scenario_image); (1, scenario_expected)]).
Proof.
  split.
  - apply (X9_collect_one_per_process 2 [(0, scenario_image)]); cbn; lia.
  - apply (X9_collect_one_per_process 1
             [(0, scenario_image); (1, scenario_expected)]); cbn; lia.
Defined.

(** X10: when fewer processes deliver a container than were started, the
    run never returns: it stays in [q.get()]. *)
Theorem X10_missing_container_blocks (ink : list Z → pixel)
    (arrival : list Z) (img : Image) (color1 color2 : Color)
    (tolerance K : Z) :
  wf img → 1 ≤ K → (∀ i, i ∈ arrival → 0 ≤ i < K) →
  Z.of_nat (length arrival) < K →
  change_img ink arrival img color1 color2 tolerance K = Raise Blocked.
Proof.
  intros Hwf HK Hin Hlen. unfold change_img.
  rewrite run_processes_correct by done. cbn.
  unfold collect, range0, range.
  replace (K - 0) with (Z.of_nat (Z.to_nat K)) by lia.
  rewrite collect_loop, length_fmap.
  rewrite decide_False by lia. done.
Qed.

Lemma X10_missing_container_blocks_witness :
  change_img ink8 [1] scenario_image scenario_from scenario_to 1 2
    = Raise Blocked.
Proof.
  apply X10_missing_container_blocks;
    [apply wf_scenario_image|lia| |cbn; lia].
  intros i Hi. apply list_elem_of_singleton in Hi. lia.
Defined.

Lemma paste_area_again (g : pixel → pixel) (m : Mode) (sz : Z * Z)
    (rws : list (list pixel)) (K i : Z) :
  wf (mkImage m sz rws) → 1 ≤ K → 0 ≤ i < K →
  paste (map_pixels g (mkImage m sz rws))
    (map_pixels g (crop (mkImage m sz rws) (area (mkImage m sz rws) K i)))
    (area (map_pixels g (mkImage m sz rws)) K i) =
  Ok (map_pixels g (mkImage m sz rws)).
Proof.
  intros Hwf HK Hi. pose proof Hwf as (HW & HH & _). cbn in HW, HH.
  pose proof (bound_range sz.1 K i HW HK).
  pose proof (bound_range sz.1 K (i + 1) HW HK).
  pose proof (bound_mono sz.1 K i (i + 1) HW HK).
  change (map_pixels g (mkImage m sz rws))
    with (mkImage m sz ((λ row : list pixel, g <$> row) <$> rws)).
  rewrite !area_bounds. cbn [size].
  rewrite paste_grid by done. cbn [mode size rows]. do 2 f_equal.
  rewrite grid_fmap, grid_grid. apply grid_ext.
  intros x y row p Hrow Hp.
  destruct (wf_inside _ _ _ _ _ Hwf Hrow Hp) as (Hx & Hy & _).
  cbn in Hx, Hy. unfold in_box.
  case_bool_decide as Hin; [|done].
  rewrite px_map_pixels, px_crop by first [done | cbn; lia].
  replace (Z.to_nat (bound sz.1 K i +
             Z.of_nat (Z.to_nat (Z.of_nat x - bound sz.1 K i)))) with x
    by lia.
  replace (Z.to_nat (0 + Z.of_nat (Z.to_nat (Z.of_nat y - 0)))) with y
    by lia.
  unfold px. cbn [rows]. rewrite Hrow. cbn. by rewrite Hp.
Qed.

(** X11: compositing again changes nothing: once the run has returned,
    pasting any of the collected areas over its output, in any order and
    any number of times, gives the output back. *)
Theorem X11_recomposition_idempotent (ink : list Z → pixel)
    (arrival : list Z) (img : Image) (color1 color2 : Color)
    (tolerance K : Z) :
  wf img → 1 ≤ K → arrival ≡ₚ range0 K →
  ∃ q crop_dict out,
    run_processes ink arrival img color1 color2 tolerance K = Ok q ∧
    collect K q = Ok (crop_dict, []) ∧
    change_img ink arrival img color1 color2 tolerance K = Ok out ∧
    ∀ areas, (∀ i, i ∈ areas → 0 ≤ i < K) →
      paste_areas areas crop_dict K out = Ok out.
Proof.
  intros Hwf HK Hperm.
  assert (Hin : ∀ i, i ∈ arrival ↔ 0 ≤ i < K).
  { intros i. rewrite Hperm. apply elem_of_range. }
  do 3 eexists. split_and!.
  - apply run_processes_correct; [done..|]. by intros i ?%Hin.
  - apply collect_all; [lia|]. rewrite length_fmap, Hperm.
    unfold range0, range. rewrite length_seqZ. lia.
  - by apply change_img_correct.
  - intros areas. unfold paste_areas.
    induction areas as [|i areas IH]; intros Hareas; [done|].
    cbn [for_each]. rewrite unpack_lookup by (apply Hin, Hareas; by left).
    destruct img as [m sz rws]. unfold region_result.
    rewrite paste_area_again by (done || apply Hareas; by left). cbn.
    apply IH. intros j Hj. apply Hareas. by right.
Qed.

Lemma X11_recomposition_idempotent_witness :
  ∃ q crop_dict out,
    run_processes ink8 [1; 0] scenario_image scenario_from scenario_to 1 2
      = Ok q ∧
    collect 2 q = Ok (crop_dict, []) ∧
    change_img ink8 [1; 0] scenario_image scenario_from scenario_to 1 2
      = Ok out ∧
    ∀ areas, (∀ i, i ∈ areas → 0 ≤ i < 2) →
      paste_areas areas crop_dict 2 out = Ok out.
Proof.
  apply X11_recomposition_idempotent;
    [apply wf_scenario_image|lia|vm_compute; apply perm_swap].
Defined.

(** X12: replacing a colour by itself changes nothing, at any tolerance:
    on a well-formed image whose pixels the library stores as they are,
    the run with the same colour as source and target returns the image. *)
Theorem X12_same_colour_identity (ink : list Z → pixel) (arrival : list Z)
    (img : Image) (color : Color) (tolerance K : Z) :
  wf img → 1 ≤ K → arrival ≡ₚ range0 K →
  Forall (Forall (λ p, ink p = p)) (rows img) →
  change_img ink arrival img color color tolerance K = Ok img.
Proof.
  intros Hwf HK Hperm Hink. rewrite change_img_correct by done. f_equal.
  apply map_pixels_id. intros x y row p Hrow Hp.
  destruct (wf_inside _ _ _ _ _ Hwf Hrow Hp) as (_ & _ & Hlen).
  rewrite Forall_lookup in Hink. specialize (Hink _ _ Hrow).
  rewrite Forall_lookup in Hink. specialize (Hink _ _ Hp).
  destruct (bands_channels _ _ Hlen) as (r & g & b & alpha & ->).
  unfold recolor. destruct (check_pixel _ _ _) as [[|]|]; [|done..].
  rewrite change_pixel_take.
  replace (c0 color + r - c0 color) with r by lia.
  replace (c1 color + g - c1 color) with g by lia.
  replace (c2 color + b - c2 color) with b by lia.
  replace (take 1 alpha) with alpha; [done|].
  cbn in Hlen. destruct (mode img), alpha as [|a [|a' alpha]];
    cbn in *; try done; lia.
Qed.

Lemma X12_same_colour_identity_witness :
  change_img ink8 [1; 0] scenario_image scenario_from scenario_from 70 2
    = Ok scenario_image.
Proof.
  apply X12_same_colour_identity;
    [apply wf_scenario_image|lia|vm_compute; apply perm_swap|].
  repeat constructor.
Defined.

(** * Further properties of the command line *)

Section MoreChecks.

Variable int : string → option Z.

Lemma core_count_check_Ok (argv : list string) (n : Z) :
  core_count_check int argv = Ok n → 1 ≤ n.
Proof.
  unfold core_count_check, arg, py_int.
  destruct (argv !! 1%nat) as [a|]; [|done]. cbn.
  destruct (int a) as [k|]; [|done]. cbn.
  destruct (Z.geb_spec k 1); cbn; [|done]. intros [= <-]. lia.
Qed.

Lemma core_count_check_Raise (argv : list string) (e : exn) :
  (2 ≤ length argv)%nat →
  core_count_check int argv = Raise e → e = SystemExit 1.
Proof.
  intros Hlen.
  destruct (lookup_lt_is_Some_2 argv 1) as [a Ha]; [lia|].
  destruct (core_count_check_cases int argv a Ha) as [->|(n & _ & ->)];
    [by intros [= <-]|done].
Qed.

Lemma tolerance_arg_given (argv : list string) (i : nat) (a : string)
    (t : Z) :
  length argv = S i → argv !! i = Some a → int a = Some t → t ≤ 255 →
  tolerance_arg int argv i = Ok t.
Proof.
  intros Hlen Ha Ht Hle. unfold tolerance_arg, arg, py_int.
  rewrite bool_decide_eq_true_2 by done. rewrite Ha. cbn. rewrite Ht. cbn.
  destruct (Z.gtb_spec t 255); [lia|done].
Qed.

Lemma tolerance_arg_not_int (argv : list string) (i : nat) (a : string) :
  length argv = S i → argv !! i = Some a → int a = None →
  tolerance_arg int argv i = Raise ValueError.
Proof.
  intros Hlen Ha Ht. unfold tolerance_arg, arg, py_int.
  rewrite bool_decide_eq_true_2 by done. rewrite Ha. cbn. by rewrite Ht.
Qed.

Lemma tolerance_arg_default (argv : list string) (i : nat) :
  length argv ≠ S i → tolerance_arg int argv i = Ok 70.
Proof.
  intros Hlen. unfold tolerance_arg. by rewrite bool_decide_eq_false_2.
Qed.

Lemma tolerance_arg_Ok (argv : list string) (i : nat) (t : Z) :
  tolerance_arg int argv i = Ok t → t ≤ 255.
Proof.
  unfold tolerance_arg, arg, py_int. case_bool_decide; [|intros [= <-]; lia].
  destruct (argv !! i) as [a|]; [|done]. cbn.
  destruct (int a) as [k|]; [|done]. cbn.
  destruct (Z.gtb_spec k 255); cbn; [done|]. intros [= <-]. lia.
Qed.

Lemma tolerance_arg_Raise (argv : list string) (i : nat) (code : Z) :
  tolerance_arg int argv i = Raise (SystemExit code) → code = 1.
Proof.
  unfold tolerance_arg, arg, py_int. case_bool_decide; [|done].
  destruct (argv !! i) as [a|]; [|done]. cbn.
  destruct (int a) as [k|]; [|done]. cbn.
  destruct (k >? 255); cbn; [|done]. by intros [= <-].
Qed.

Lemma try_except_exit {A B : Type} (body : result A) (k : A → B) (e : exn) :
  (∀ code, body = Raise (SystemExit code) → code = 1) →
  try_except (a ← body; Ok (k a)) is_Exception exit_error = Raise e →
  e = SystemExit 1.
Proof.
  intros Hbody. destruct body as [a|[| | |code|]]; cbn; try done;
    try by intros [= <-].
  rewrite (Hbody code eq_refl). by intros [= <-].
Qed.

Lemma parse_parameters_bounds (argv : list string) (p : Params) :
  parse_parameters int argv = Ok p →
  1 ≤ core_count_of p ∧ tolerance_of p ≤ 255.
Proof.
  unfold parse_parameters.
  destruct (core_count_check int argv) as [n|] eqn:Hn; [|done].
  cbn [mbind result_bind].
  apply core_count_check_Ok in Hn.
  destruct (arg argv 2) as [flag|]; [|done]. cbn [mbind result_bind].
  destruct (_ || _).
  - destruct (_ || _); [|done].
    destruct (arg argv 3) as [?|]; [|by cbn; destruct (is_Exception _)].
    destruct (arg argv 4) as [?|]; [|by cbn; destruct (is_Exception _)].
    destruct (arg argv 5) as [?|]; [|by cbn; destruct (is_Exception _)]. cbn [mbind result_bind].
    destruct (tolerance_arg int argv 6) as [t|?] eqn:Ht;
      [|by cbn; destruct (is_Exception _)].
    cbn. intros [= <-]. apply tolerance_arg_Ok in Ht. done.
  - destruct (_ || _); [|done].
    destruct (_ || _); [|done].
    destruct (arg argv 3) as [?|]; [|by cbn; destruct (is_Exception _)].
    destruct (arg argv 4) as [?|]; [|by cbn; destruct (is_Exception _)].
    destruct (arg argv 5) as [?|]; [|by cbn; destruct (is_Exception _)].
    destruct (arg argv 6) as [?|]; [|by cbn; destruct (is_Exception _)]. cbn [mbind result_bind].
    destruct (tolerance_arg int argv 7) as [t|?] eqn:Ht;
      [|by cbn; destruct (is_Exception _)].
    cbn. intros [= <-]. apply tolerance_arg_Ok in Ht. done.
Qed.

(** X13: whatever the parser returns is usable: the number of processes is
    at least 1 and the tolerance is at most 255. *)
Theorem X13_parsed_parameters_bounds (argv : list string) (p : Params) :
  parse_parameters int argv = Ok p →
  1 ≤ core_count_of p ∧ tolerance_of p ≤ 255.
Proof. apply parse_parameters_bounds. Qed.

End MoreChecks.

Lemma X13_parsed_parameters_bounds_witness :
  1 ≤ core_count_of (SingleImage "image.png" "red" "blue" (-5) 2) ∧
  tolerance_of (SingleImage "image.png" "red" "blue" (-5) 2) ≤ 255.
Proof.
  apply (X13_parsed_parameters_bounds int_decimal
           ["ColorEdit.py"; "2"; "I"; "image.png"; "red"; "blue"; "-5"]).
  reflexivity.
Defined.

Lemma arg_Raise (argv : list string) (i : nat) (e : exn) :
  arg argv i = Raise e → e = IndexError.
Proof. unfold arg. destruct (argv !! i); [done|]. by intros [= <-]. Qed.

(** X14: with at least three command-line entries the parser ends in one
    of two ways only: it returns parameters, or it exits with status 1
    after the usage text; no other exception leaves it. *)
Lemma parse_parameters_Raise (int : string → option Z)
    (argv : list string) (e : exn) :
  (3 ≤ length argv)%nat →
  parse_parameters int argv = Raise e → e = SystemExit 1.
Proof.
  intros Hlen. unfold parse_parameters.
  destruct (core_count_check int argv) as [n|e'] eqn:Hn;
    cbn [mbind result_bind].
  2:{ intros [= <-]. apply (core_count_check_Raise int argv); [lia|done]. }
  destruct (lookup_lt_is_Some_2 argv 2) as [flag Hflag]; [lia|].
  assert (Harg : arg argv 2 = Ok flag) by (unfold arg; by rewrite Hflag).
  rewrite Harg. cbn [mbind result_bind].
  destruct (_ || _).
  - destruct (_ || _); [|by intros [= <-]].
    destruct (arg argv 3) as [a3|e3] eqn:H3;
      [|apply arg_Raise in H3 as ->; by intros [= <-]].
    destruct (arg argv 4) as [a4|e4] eqn:H4;
      [|apply arg_Raise in H4 as ->; by intros [= <-]].
    destruct (arg argv 5) as [a5|e5] eqn:H5;
      [|apply arg_Raise in H5 as ->; by intros [= <-]].
    cbn [mbind result_bind].
    apply (try_except_exit (tolerance_arg int argv 6)
             (λ t, SingleImage a3 a4 a5 t n)).
    apply tolerance_arg_Raise.
  - destruct (_ || _); [|by intros [= <-]].
    destruct (_ || _); [|by intros [= <-]].
    destruct (arg argv 3) as [a3|e3] eqn:H3;
      [|apply arg_Raise in H3 as ->; by intros [= <-]].
    destruct (arg argv 4) as [a4|e4] eqn:H4;
      [|apply arg_Raise in H4 as ->; by intros [= <-]].
    destruct (arg argv 5) as [a5|e5] eqn:H5;
      [|apply arg_Raise in H5 as ->; by intros [= <-]].
    destruct (arg argv 6) as [a6|e6] eqn:H6;
      [|apply arg_Raise in H6 as ->; by intros [= <-]].
    cbn [mbind result_bind].
    apply (try_except_exit (tolerance_arg int argv 7)
             (λ t, Directory a3 a4 a5 a6 t n)).
    apply tolerance_arg_Raise.
Qed.

(** X14: with at least three command-line entries the parser ends in one
    of two ways only: it returns parameters, or it exits with status 1
    after the usage text; no other exception leaves it. *)
Theorem X14_parser_exits_cleanly (int : string → option Z)
    (argv : list string) :
  (3 ≤ length argv)%nat →
  (∃ p, parse_parameters int argv = Ok p) ∨
  parse_parameters int argv = Raise (SystemExit 1).
Proof.
  intros Hlen. destruct (parse_parameters int argv) as [p|e] eqn:Hp.
  - left. eauto.
  - right. f_equal. by apply (parse_parameters_Raise int argv).
Qed.

Lemma X14_parser_exits_cleanly_witness :
  (∃ p, parse_parameters int_decimal
          ["ColorEdit.py"; "2"; "I"; "image.png"; "red"; "blue"; "many"]
          = Ok p) ∨
  parse_parameters int_decimal
    ["ColorEdit.py"; "2"; "I"; "image.png"; "red"; "blue"; "many"]
    = Raise (SystemExit 1).
Proof. apply X14_parser_exits_cleanly. cbn. lia. Defined.

(** X15: single-image mode.  With a count of at least 1 and the flag I or
    i, six entries give the path and the two colour strings as typed with
    the default tolerance 70; a seventh entry that reads as a number of at
    most 255, negative ones included, is the tolerance; a seventh entry
    that is not a number makes the parser exit. *)
Theorem X15_single_image_parameters (int : string → option Z)
    (prog count flag image_path color_1 color_2 : string) (n : Z) :
  flag = "I" ∨ flag = "i" → int count = Some n → 1 ≤ n →
  parse_parameters int [prog; count; flag; image_path; color_1; color_2]
    = Ok (SingleImage image_path color_1 color_2 70 n) ∧
  (∀ a t, int a = Some t → t ≤ 255 →
     parse_parameters int
       [prog; count; flag; image_path; color_1; color_2; a]
       = Ok (SingleImage image_path color_1 color_2 t n)) ∧
  (∀ a, int a = None →
     parse_parameters int
       [prog; count; flag; image_path; color_1; color_2; a]
       = Raise (SystemExit 1)).
Proof.
  intros Hflag Hcount Hn.
  assert (Hcc : ∀ l, core_count_check int (prog :: count :: l) = Ok n).
  { intros l.
    rewrite (core_count_check_int int (prog :: count :: l) count n eq_refl
               Hcount).
    destruct (Z.geb_spec n 1); [done|lia]. }
  split_and!.
  - unfold parse_parameters. rewrite Hcc.
    rewrite tolerance_arg_default by done.
    destruct Hflag as [-> | ->]; reflexivity.
  - intros a t Ha Ht. unfold parse_parameters. rewrite Hcc.
    rewrite (tolerance_arg_given int _ _ a t) by done.
    destruct Hflag as [-> | ->]; reflexivity.
  - intros a Ha. unfold parse_parameters. rewrite Hcc.
    rewrite (tolerance_arg_not_int int _ _ a) by done.
    destruct Hflag as [-> | ->]; reflexivity.
Qed.

Lemma X15_single_image_parameters_witness :
  parse_parameters int_decimal
    ["ColorEdit.py"; "4"; "i"; "image.jpg"; "skyblue"; "red"]
    = Ok (SingleImage "image.jpg" "skyblue" "red" 70 4) ∧
  (∀ a t, int_decimal a = Some t → t ≤ 255 →
     parse_parameters int_decimal
       ["ColorEdit.py"; "4"; "i"; "image.jpg"; "skyblue"; "red"; a]
       = Ok (SingleImage "image.jpg" "skyblue" "red" t 4)) ∧
  (∀ a, int_decimal a = None →
     parse_parameters int_decimal
       ["ColorEdit.py"; "4"; "i"; "image.jpg"; "skyblue"; "red"; a]
       = Raise (SystemExit 1)).
Proof.
  apply X15_single_image_parameters; [by right|reflexivity|lia].
Defined.

(** X16: directory mode.  With a count of at least 1 and the flag D or d,
    seven entries give the directory, the extension and the two colour
    strings as typed with the default tolerance 70; an eighth entry that
    reads as a number of at most 255 is the tolerance; an eighth entry
    that is not a number makes the parser exit. *)
Theorem X16_directory_parameters (int : string → option Z)
    (prog count flag dir_path extension color_1 color_2 : string) (n : Z) :
  flag = "D" ∨ flag = "d" → int count = Some n → 1 ≤ n →
  parse_parameters int
    [prog; count; flag; dir_path; extension; color_1; color_2]
    = Ok (Directory dir_path extension color_1 color_2 70 n) ∧
  (∀ a t, int a = Some t → t ≤ 255 →
     parse_parameters int
       [prog; count; flag; dir_path; extension; color_1; color_2; a]
       = Ok (Directory dir_path extension color_1 color_2 t n)) ∧
  (∀ a, int a = None →
     parse_parameters int
       [prog; count; flag; dir_path; extension; color_1; color_2; a]
       = Raise (SystemExit 1)).
Proof.
  intros Hflag Hcount Hn.
  assert (Hcc : ∀ l, core_count_check int (prog :: count :: l) = Ok n).
  { intros l.
    rewrite (core_count_check_int int (prog :: count :: l) count n eq_refl
               Hcount).
    destruct (Z.geb_spec n 1); [done|lia]. }
  split_and!.
  - unfold parse_parameters. rewrite Hcc.
    rewrite (tolerance_arg_default int _ 7) by done.
    destruct Hflag as [-> | ->]; reflexivity.
  - intros a t Ha Ht. unfold parse_parameters. rewrite Hcc.
    rewrite (tolerance_arg_given int _ 7 a t) by done.
    destruct Hflag as [-> | ->]; reflexivity.
  - intros a Ha. unfold parse_parameters. rewrite Hcc.
    rewrite (tolerance_arg_not_int int _ 7 a) by done.
    destruct Hflag as [-> | ->]; reflexivity.
Qed.

Lemma X16_directory_parameters_witness :
  parse_parameters int_decimal
    ["ColorEdit.py"; "8"; "D"; "dir"; ".png"; "yellow"; "red"]
    = Ok (Directory "dir" ".png" "yellow" "red" 70 8) ∧
  (∀ a t, int_decimal a = Some t → t ≤ 255 →
     parse_parameters int_decimal
       ["ColorEdit.py"; "8"; "D"; "dir"; ".png"; "yellow"; "red"; a]
       = Ok (Directory "dir" ".png" "yellow" "red" t 8)) ∧
  (∀ a, int_decimal a = None →
     parse_parameters int_decimal
       ["ColorEdit.py"; "8"; "D"; "dir"; ".png"; "yellow"; "red"; a]
       = Raise (SystemExit 1)).
Proof.
  apply X16_directory_parameters; [by left|reflexivity|lia].
Defined.

(** X17: what the parser refuses.  A mode flag other than I, i, D or d, a
    single-image command line that does not have 6 or 7 entries, and a
    directory command line that does not have 7 or 8 entries all end in
    the usage error, whatever the other entries are. *)
Theorem X17_parser_refuses (int : string → option Z) (argv : list string)
    (flag : string) :
  argv !! 2%nat = Some flag →
  (flag ≠ "I" ∧ flag ≠ "i" ∧ flag ≠ "D" ∧ flag ≠ "d") ∨
  ((flag = "I" ∨ flag = "i") ∧ length argv ≠ 6%nat ∧ length argv ≠ 7%nat) ∨
  ((flag = "D" ∨ flag = "d") ∧ length argv ≠ 7%nat ∧ length argv ≠ 8%nat) →
  parse_parameters int argv = Raise (SystemExit 1).
Proof.
  intros Hflag Hcase.
  destruct (lookup_lt_is_Some_2 argv 1) as [a Ha].
  { apply lookup_lt_Some in Hflag. lia. }
  unfold parse_parameters.
  destruct (core_count_check_cases int argv a Ha) as [->|(n & _ & ->)];
    [done|].
  cbn [mbind result_bind].
  assert (Harg : arg argv 2 = Ok flag) by (unfold arg; by rewrite Hflag).
  rewrite Harg. cbn [mbind result_bind].
  destruct Hcase as [(HI & Hi & HD & Hd)|[(Hf & H6 & H7)|(Hf & H7 & H8)]].
  - rewrite (bool_decide_eq_false_2 (flag = "I")) by done.
    rewrite (bool_decide_eq_false_2 (flag = "i")) by done.
    rewrite (bool_decide_eq_false_2 (flag = "D")) by done.
    by rewrite (bool_decide_eq_false_2 (flag = "d")).
  - rewrite (bool_decide_eq_false_2 (length argv = 6%nat)) by done.
    rewrite (bool_decide_eq_false_2 (length argv = 7%nat)) by done.
    destruct Hf as [-> | ->].
    + by rewrite (bool_decide_eq_true_2 ("I" = "I")).
    + rewrite (bool_decide_eq_false_2 ("i" = "I")) by done.
      by rewrite (bool_decide_eq_true_2 ("i" = "i")).
  - rewrite (bool_decide_eq_false_2 (length argv = 7%nat)) by done.
    rewrite (bool_decide_eq_false_2 (length argv = 8%nat)) by done.
    destruct Hf as [-> | ->].
    + rewrite (bool_decide_eq_false_2 ("D" = "I")) by done.
      rewrite (bool_decide_eq_false_2 ("D" = "i")) by done.
      by rewrite (bool_decide_eq_true_2 ("D" = "D")).
    + rewrite (bool_decide_eq_false_2 ("d" = "I")) by done.
      rewrite (bool_decide_eq_false_2 ("d" = "i")) by done.
      rewrite (bool_decide_eq_false_2 ("d" = "D")) by done.
      by rewrite (bool_decide_eq_true_2 ("d" = "d")).
Qed.

Lemma X17_parser_refuses_witness :
  parse_parameters int_decimal
    ["ColorEdit.py"; "4"; "I"; "image.png"; "red"] = Raise (SystemExit 1).
Proof.
  apply (X17_parser_refuses int_decimal _ "I"); [reflexivity|].
  right; left. split_and!; [by left|cbn; lia..].
Defined.

(** * The colour arguments *)

Section MoreColors.

Variable getcolor : string → option Color.
Variable int : string → option Z.

(** The numeric reading of four pieces: the test of lines 113-114 followed
    by the return of line 117. *)
Lemma numeric_color (s0 s1 s2 s3 : string) :
  let tpl := [s0; s1; s2; s3] in
  let body :=
    bad ←
      py_or (v ← component int tpl 0; Ok (v <? 0))
     (py_or (v ← component int tpl 1; Ok (v <? 0))
     (py_or (v ← component int tpl 2; Ok (v <? 0))
     (py_or (v ← component int tpl 3; Ok (v <? 0))
     (py_or (v ← component int tpl 0; Ok (v >? 255))
     (py_or (v ← component int tpl 1; Ok (v >? 255))
     (py_or (v ← component int tpl 2; Ok (v >? 255))
            (v ← component int tpl 3; Ok (v >? 255))))))));
    if bad : bool then Raise ValueError
    else
      v0 ← component int tpl 0;
      v1 ← component int tpl 1;
      v2 ← component int tpl 2;
      v3 ← component int tpl 3;
      Ok (mkColor v0 v1 v2 v3) in
  (∃ v0 v1 v2 v3,
     int s0 = Some v0 ∧ int s1 = Some v1 ∧ int s2 = Some v2 ∧
     int s3 = Some v3 ∧
     0 ≤ v0 ≤ 255 ∧ 0 ≤ v1 ≤ 255 ∧ 0 ≤ v2 ≤ 255 ∧ 0 ≤ v3 ≤ 255 ∧
     body = Ok (mkColor v0 v1 v2 v3)) ∨
  ((¬ ∃ v0 v1 v2 v3,
      int s0 = Some v0 ∧ int s1 = Some v1 ∧ int s2 = Some v2 ∧
      int s3 = Some v3 ∧
      0 ≤ v0 ≤ 255 ∧ 0 ≤ v1 ≤ 255 ∧ 0 ≤ v2 ≤ 255 ∧ 0 ≤ v3 ≤ 255) ∧
   body = Raise ValueError).
Proof.
  cbn zeta. unfold component, arg, py_int, py_or. cbn.
  destruct (int s0) as [v0|];
    [|right; split; [by intros (? & ? & ? & ? & ? & _)|done]].
  cbn. destruct (Z.ltb_spec v0 0);
    [right; split; [intros (? & ? & ? & ? & [= <-] & ?); lia|done]|].
  destruct (int s1) as [v1|];
    [|right; split; [by intros (? & ? & ? & ? & ? & ? & _)|done]].
  cbn. destruct (Z.ltb_spec v1 0);
    [right; split; [intros (? & ? & ? & ? & _ & [= <-] & ?); lia|done]|].
  destruct (int s2) as [v2|];
    [|right; split; [by intros (? & ? & ? & ? & ? & ? & ? & _)|done]].
  cbn. destruct (Z.ltb_spec v2 0);
    [right; split; [intros (? & ? & ? & ? & _ & _ & [= <-] & ?); lia|done]|].
  destruct (int s3) as [v3|];
    [|right; split; [by intros (? & ? & ? & ? & ? & ? & ? & ? & _)|done]].
  cbn. destruct (Z.ltb_spec v3 0);
    [right; split;
       [intros (? & ? & ? & ? & _ & _ & _ & [= <-] & ?); lia|done]|].
  destruct (Z.gtb_spec v0 255);
    [right; split; [intros (? & ? & ? & ? & [= <-] & ?); lia|done]|].
  destruct (Z.gtb_spec v1 255);
    [right; split; [intros (? & ? & ? & ? & _ & [= <-] & ?); lia|done]|].
  destruct (Z.gtb_spec v2 255);
    [right; split; [intros (? & ? & ? & ? & _ & _ & [= <-] & ?); lia|done]|].
  destruct (Z.gtb_spec v3 255);
    [right; split;
       [intros (? & ? & ? & ? & _ & _ & _ & [= <-] & ?); lia|done]|].
  left. exists v0, v1, v2, v3. split_and!; try done; lia.
Qed.

End MoreColors.

Section ColorResults.

Variable getcolor : string → option Color.
Variable int : string → option Z.

(** The second attempt of [check_color], made when the library does not
    know the string. *)
Lemma check_color_unknown (color : string) :
  getcolor color = None →
  (∃ s0 s1 s2 s3 v0 v1 v2 v3,
     split_on ","%char color = [s0; s1; s2; s3] ∧
     int s0 = Some v0 ∧ int s1 = Some v1 ∧ int s2 = Some v2 ∧
     int s3 = Some v3 ∧
     0 ≤ v0 ≤ 255 ∧ 0 ≤ v1 ≤ 255 ∧ 0 ≤ v2 ≤ 255 ∧ 0 ≤ v3 ≤ 255 ∧
     check_color getcolor int color = Ok (mkColor v0 v1 v2 v3)) ∨
  ((¬ ∃ s0 s1 s2 s3 v0 v1 v2 v3,
      split_on ","%char color = [s0; s1; s2; s3] ∧
      int s0 = Some v0 ∧ int s1 = Some v1 ∧ int s2 = Some v2 ∧
      int s3 = Some v3 ∧
      0 ≤ v0 ≤ 255 ∧ 0 ≤ v1 ≤ 255 ∧ 0 ≤ v2 ≤ 255 ∧ 0 ≤ v3 ≤ 255) ∧
   check_color getcolor int color = Raise (SystemExit 1)).
Proof.
  intros Hname. unfold check_color. rewrite Hname.
  cbn [try_except is_ValueError]. cbn zeta.
  destruct (split_on ","%char color) as [|s0 [|s1 [|s2 [|s3 [|s4 l]]]]]
    eqn:Hsplit;
    try (right; split;
         [by intros (? & ? & ? & ? & ? & ? & ? & ? & ? & _)|done]).
  rewrite bool_decide_eq_true_2 by done. cbn [negb].
  destruct (numeric_color int s0 s1 s2 s3)
    as [(v0 & v1 & v2 & v3 & H0 & H1 & H2 & H3 & B0 & B1 & B2 & B3 & Hbody)
       |[Hnot Hbody]];
    cbn zeta in Hbody; rewrite Hbody.
  - left. exists s0, s1, s2, s3, v0, v1, v2, v3. split_and!; first [done | lia].
  - right. split; [|done].
    intros (t0 & t1 & t2 & t3 & v0 & v1 & v2 & v3 & [= <- <- <- <-] & H).
    apply Hnot. by exists v0, v1, v2, v3.
Qed.

(** X18: a colour argument is either accepted or ends the program with
    status 1 after the message; no other exception leaves [check_color],
    whatever the string. *)
Theorem X18_check_color_exits_cleanly (color : string) :
  (∃ c, check_color getcolor int color = Ok c) ∨
  check_color getcolor int color = Raise (SystemExit 1).
Proof.
  destruct (getcolor color) as [c|] eqn:Hname.
  - left. exists c. unfold check_color. by rewrite Hname.
  - destruct (check_color_unknown color Hname)
      as [(? & ? & ? & ? & v0 & v1 & v2 & v3 & H)|[_ H]].
    + left. exists (mkColor v0 v1 v2 v3). apply H.
    + by right.
Qed.

(** X19: which colour arguments are accepted, and with what value.  A
    string the library knows as a colour gives the library's colour.  Any
    other string is accepted exactly when its pieces between commas are
    four, each reads as a number, and each number lies in 0..255; the
    colour is then these four numbers. *)
Theorem X19_check_color_accepts (color : string) (c : Color) :
  check_color getcolor int color = Ok c ↔
  getcolor color = Some c ∨
  (getcolor color = None ∧
   ∃ s0 s1 s2 s3,
     split_on ","%char color = [s0; s1; s2; s3] ∧
     int s0 = Some (c0 c) ∧ int s1 = Some (c1 c) ∧
     int s2 = Some (c2 c) ∧ int s3 = Some (c3 c) ∧
     0 ≤ c0 c ≤ 255 ∧ 0 ≤ c1 c ≤ 255 ∧ 0 ≤ c2 c ≤ 255 ∧ 0 ≤ c3 c ≤ 255).
Proof.
  destruct (getcolor color) as [c'|] eqn:Hname.
  - unfold check_color. rewrite Hname. cbn. split.
    + intros [= ->]. by left.
    + intros [[= ->]|[[=] _]]. done.
  - destruct (check_color_unknown color Hname)
      as [(s0 & s1 & s2 & s3 & v0 & v1 & v2 & v3 & Hs & H0 & H1 & H2 & H3 &
           B0 & B1 & B2 & B3 & Hcc)|[Hnot Hcc]]; rewrite Hcc; split.
    + intros [= <-]. right. split; [done|].
      exists s0, s1, s2, s3. cbn. split_and!; first [done | lia].
    + intros [[=]|[_ (t0 & t1 & t2 & t3 & Ht & G0 & G1 & G2 & G3 & _)]].
      rewrite Hs in Ht. injection Ht as <- <- <- <-.
      destruct c as [k0 k1 k2 k3]. cbn in *. congruence.
    + done.
    + intros [[=]|[_ (t0 & t1 & t2 & t3 & Ht & G0 & G1 & G2 & G3 & B)]].
      exfalso. apply Hnot.
      exists t0, t1, t2, t3, (c0 c), (c1 c), (c2 c), (c3 c).
      split_and!; first [done | lia].
Qed.

End ColorResults.

(** * The program as a whole *)

Lemma arg_Ok (argv : list string) (i : nat) (a : string) :
  arg argv i = Ok a → argv !! i = Some a.
Proof. unfold arg. destruct (argv !! i); [|done]. by intros [= ->]. Qed.

Lemma parse_single_flag (int : string → option Z) (argv : list string)
    (image_path color_1 color_2 : string) (tolerance n : Z) :
  parse_parameters int argv =
    Ok (SingleImage image_path color_1 color_2 tolerance n) →
  flag_is argv "I" "i" = true.
Proof.
  unfold parse_parameters, flag_is.
  destruct (core_count_check int argv) as [k|]; [|done].
  cbn [mbind result_bind].
  destruct (arg argv 2) as [flag|] eqn:Hflag; [|done].
  apply arg_Ok in Hflag. rewrite Hflag.
  cbn [mbind result_bind].
  destruct (decide (flag = "I")) as [->|HI].
  - rewrite (bool_decide_eq_true_2 ("I" = "I")) by done. cbn [orb].
    destruct (_ || _) eqn:Hlen; [|done].
    intros _. apply andb_true_iff. split; [|by rewrite bool_decide_eq_true_2].
    apply Nat.ltb_lt.
    apply orb_true_iff in Hlen as [H%bool_decide_eq_true|H%bool_decide_eq_true];
      lia.
  - rewrite (bool_decide_eq_false_2 (flag = "I")) by done. cbn [orb].
    destruct (decide (flag = "i")) as [->|Hi].
    + rewrite (bool_decide_eq_true_2 ("i" = "i")) by done.
      destruct (_ || _) eqn:Hlen; [|done].
      intros _. apply andb_true_iff. split.
      * apply Nat.ltb_lt.
        apply orb_true_iff in Hlen
          as [H%bool_decide_eq_true|H%bool_decide_eq_true]; lia.
      * rewrite (bool_decide_eq_true_2 (Some "i" = Some "i")) by done.
        apply orb_true_r.
    + rewrite (bool_decide_eq_false_2 (flag = "i")) by done.
      destruct (_ || _); [|done].
      destruct (_ || _); [|done].
      destruct (arg argv 3) as [?|]; [|by cbn; destruct (is_Exception _)].
      destruct (arg argv 4) as [?|]; [|by cbn; destruct (is_Exception _)].
      destruct (arg argv 5) as [?|]; [|by cbn; destruct (is_Exception _)].
      destruct (arg argv 6) as [?|]; [|by cbn; destruct (is_Exception _)].
      cbn [mbind result_bind].
      destruct (tolerance_arg int argv 7) as [t|?];
        [done|by cbn; destruct (is_Exception _)].
Qed.

Lemma parse_directory_flag (int : string → option Z) (argv : list string)
    (dir_path extension color_1 color_2 : string) (tolerance n : Z) :
  parse_parameters int argv =
    Ok (Directory dir_path extension color_1 color_2 tolerance n) →
  flag_is argv "I" "i" = false ∧ flag_is argv "D" "d" = true.
Proof.
  unfold parse_parameters, flag_is.
  destruct (core_count_check int argv) as [k|]; [|done].
  cbn [mbind result_bind].
  destruct (arg argv 2) as [flag|] eqn:Hflag; [|done].
  apply arg_Ok in Hflag. rewrite Hflag.
  cbn [mbind result_bind].
  destruct (bool_decide (flag = "I") || bool_decide (flag = "i")) eqn:HI.
  - destruct (bool_decide (length argv = 6%nat) ||
              bool_decide (length argv = 7%nat)); [|done].
    destruct (arg argv 3) as [?|]; [|by cbn; destruct (is_Exception _)].
    destruct (arg argv 4) as [?|]; [|by cbn; destruct (is_Exception _)].
    destruct (arg argv 5) as [?|]; [|by cbn; destruct (is_Exception _)].
    cbn [mbind result_bind].
    destruct (tolerance_arg int argv 6) as [t|?];
      [done|by cbn; destruct (is_Exception _)].
  - destruct (bool_decide (flag = "D") || bool_decide (flag = "d")) eqn:HD;
      [|done].
    destruct (bool_decide (length argv = 7%nat) ||
              bool_decide (length argv = 8%nat)) eqn:Hlen; [|done].
    intros _.
    assert (Hgt : (3 <? length argv)%nat = true).
    { apply Nat.ltb_lt.
      apply orb_true_iff in Hlen
        as [H%bool_decide_eq_true|H%bool_decide_eq_true]; lia. }
    rewrite Hgt. cbn [andb].
    apply orb_false_iff in HI as [H1%bool_decide_eq_false H2%bool_decide_eq_false].
    split.
    + apply orb_false_iff.
      split; apply bool_decide_eq_false_2; congruence.
    + apply orb_true_iff in HD as [H%bool_decide_eq_true|H%bool_decide_eq_true];
        subst flag; apply orb_true_iff; [left|right];
        by apply bool_decide_eq_true_2.
Qed.

Section WholeProgram.

Variable ink : list Z → pixel.
Variable getcolor : string → option Color.
Variable int : string → option Z.
Variable open_image : string → option Image.
Variable save : string → Image → option exn.
Variable listdir : string → result (list string).
Variable splitext : string → string * string.
Variable join : string → string → string.
Variable arrival : nat → list Z.

Lemma edit_Ok (k : nat) (img_path out_path color_1 color_2 : string)
    (tolerance n : Z) (img : Image) (clr1 clr2 : Color) :
  open_image img_path = Some img → wf img →
  check_color getcolor int color_1 = Ok clr1 →
  check_color getcolor int color_2 = Ok clr2 →
  1 ≤ n → arrival k ≡ₚ range0 n →
  save out_path (map_pixels (recolor ink clr1 clr2 tolerance) img) = None →
  edit ink getcolor int open_image save arrival k img_path out_path
    color_1 color_2 tolerance n =
    Ok (out_path, map_pixels (recolor ink clr1 clr2 tolerance) img).
Proof.
  intros Hopen Hwf H1 H2 Hn Hperm Hsave. unfold edit, access_img.
  rewrite Hopen. cbn [mbind result_bind]. rewrite H1, H2.
  cbn [mbind result_bind]. rewrite change_img_correct by done.
  cbn [mbind result_bind]. by rewrite Hsave.
Qed.

(** X20: whenever the parser does not return parameters, the program writes
    no file and ends with status 1, whatever the files and the directory
    hold: a count below 1, a tolerance above 255, an unknown mode or a
    wrong number of entries are all refused before any image is opened. *)
Theorem X20_refused_before_any_file (argv : list string) (e : exn) :
  parse_parameters int argv = Raise e →
  main ink getcolor int open_image save listdir splitext join arrival argv
    = ([], Raise (SystemExit 1)).
Proof.
  intros Hparse. unfold main. rewrite Hparse.
  destruct (flag_is argv "I" "i") eqn:HI.
  - do 2 f_equal. apply (parse_parameters_Raise int argv); [|done].
    unfold flag_is in HI. apply andb_true_iff in HI as [H%Nat.ltb_lt _]. lia.
  - destruct (flag_is argv "D" "d") eqn:HD; [|done].
    do 2 f_equal. apply (parse_parameters_Raise int argv); [|done].
    unfold flag_is in HD. apply andb_true_iff in HD as [H%Nat.ltb_lt _]. lia.
Qed.

(** X21: single-image mode, everything valid: the program writes exactly one
    file, named by the path with -edit put before its extension, holding
    the opened image with every pixel recoloured, and ends normally. *)
Theorem X21_single_image_run (argv : list string)
    (image_path color_1 color_2 filename file_extension : string)
    (tolerance n : Z) (img : Image) (clr1 clr2 : Color) :
  parse_parameters int argv =
    Ok (SingleImage image_path color_1 color_2 tolerance n) →
  splitext image_path = (filename, file_extension) →
  open_image image_path = Some img → wf img →
  check_color getcolor int color_1 = Ok clr1 →
  check_color getcolor int color_2 = Ok clr2 →
  arrival 0%nat ≡ₚ range0 n →
  save (filename ++ "-edit" ++ file_extension)%string
    (map_pixels (recolor ink clr1 clr2 tolerance) img) = None →
  main ink getcolor int open_image save listdir splitext join arrival argv
    = ([((filename ++ "-edit" ++ file_extension)%string,
         map_pixels (recolor ink clr1 clr2 tolerance) img)], Ok ()).
Proof.
  intros Hparse Hsplit Hopen Hwf H1 H2 Hperm Hsave. unfold main.
  rewrite (parse_single_flag _ _ _ _ _ _ _ Hparse), Hparse, Hsplit.
  pose proof (parse_parameters_bounds int argv _ Hparse) as [Hn _].
  by rewrite (edit_Ok _ _ _ _ _ _ _ img clr1 clr2).
Qed.

Lemma edit_all_none (k : nat) (filenames : list string)
    (dir_path extension color_1 color_2 : string) (tolerance n : Z) :
  (∀ filename, filename ∈ filenames → endswith filename extension = false) →
  edit_all ink getcolor int open_image save join arrival k filenames
    dir_path extension color_1 color_2 tolerance n = ([], Ok ()).
Proof.
  induction filenames as [|f fs IH]; intros Hno; [done|].
  cbn [edit_all]. rewrite Hno by left.
  apply IH. intros g Hg. apply Hno. by right.
Qed.

Lemma edit_all_Ok (content : string → Image) (filenames : list string)
    (dir_path extension color_1 color_2 : string) (tolerance n : Z)
    (clr1 clr2 : Color) :
  check_color getcolor int color_1 = Ok clr1 →
  check_color getcolor int color_2 = Ok clr2 →
  1 ≤ n → (∀ k, arrival k ≡ₚ range0 n) →
  (∀ path img, save path img = None) →
  (∀ filename, filename ∈ filenames → endswith filename extension = true →
     open_image (join dir_path filename) = Some (content filename) ∧
     wf (content filename)) →
  ∀ k,
  edit_all ink getcolor int open_image save join arrival k filenames
    dir_path extension color_1 color_2 tolerance n =
    ((λ filename,
        ((join dir_path filename ++ "-edit" ++ extension)%string,
         map_pixels (recolor ink clr1 clr2 tolerance) (content filename)))
       <$> filter (λ filename, endswith filename extension = true) filenames,
     Ok ()).
Proof.
  intros H1 H2 Hn Hperm Hsave.
  induction filenames as [|f fs IH]; intros Hfiles k; [done|].
  cbn [edit_all]. rewrite filter_cons.
  destruct (endswith f extension) eqn:Hf.
  - destruct (Hfiles f) as [Hopen Hwf]; [by left|done|].
    rewrite (edit_Ok _ _ _ _ _ _ _ (content f) clr1 clr2) by done.
    rewrite IH by (intros g Hg; apply Hfiles; by right).
    by rewrite decide_True.
  - rewrite decide_False by done.
    apply IH. intros g Hg. apply Hfiles. by right.
Qed.

Lemma edit_all_stops (content : string → Image) (before after : list string)
    (failing dir_path extension color_1 color_2 : string) (tolerance n : Z)
    (clr1 clr2 : Color) :
  check_color getcolor int color_1 = Ok clr1 →
  check_color getcolor int color_2 = Ok clr2 →
  1 ≤ n → (∀ k, arrival k ≡ₚ range0 n) →
  (∀ path img, save path img = None) →
  (∀ filename, filename ∈ before → endswith filename extension = true →
     open_image (join dir_path filename) = Some (content filename) ∧
     wf (content filename)) →
  endswith failing extension = true →
  open_image (join dir_path failing) = None →
  ∀ k,
  edit_all ink getcolor int open_image save join arrival k
    (before ++ failing :: after)
    dir_path extension color_1 color_2 tolerance n =
    ((λ filename,
        ((join dir_path filename ++ "-edit" ++ extension)%string,
         map_pixels (recolor ink clr1 clr2 tolerance) (content filename)))
       <$> filter (λ filename, endswith filename extension = true) before,
     Raise (SystemExit 1)).
Proof.
  intros H1 H2 Hn Hperm Hsave Hbefore Hends Hfail.
  induction before as [|f fs IH]; intros k.
  - cbn [app edit_all]. rewrite Hends. unfold edit, access_img.
    by rewrite Hfail.
  - cbn [app edit_all]. rewrite filter_cons.
    destruct (endswith f extension) eqn:Hf.
    + destruct (Hbefore f) as [Hopen Hwf]; [by left|done|].
      rewrite (edit_Ok _ _ _ _ _ _ _ (content f) clr1 clr2) by done.
      rewrite IH by (intros g Hg; apply Hbefore; by right).
      by rewrite decide_True.
    + rewrite decide_False by done.
      apply IH. intros g Hg. apply Hbefore. by right.
Qed.

(** X22: directory mode, everything valid: the program recolours the files
    of the listing whose names end with the extension, and only those, in
    the order of the listing; each is written beside the original under
    the original's path followed by -edit and the extension. *)
Theorem X22_directory_run (content : string → Image) (argv : list string)
    (filenames : list string)
    (dir_path extension color_1 color_2 : string) (tolerance n : Z)
    (clr1 clr2 : Color) :
  parse_parameters int argv =
    Ok (Directory dir_path extension color_1 color_2 tolerance n) →
  listdir dir_path = Ok filenames →
  check_color getcolor int color_1 = Ok clr1 →
  check_color getcolor int color_2 = Ok clr2 →
  (∀ k, arrival k ≡ₚ range0 n) →
  (∀ path img, save path img = None) →
  (∀ filename, filename ∈ filenames → endswith filename extension = true →
     open_image (join dir_path filename) = Some (content filename) ∧
     wf (content filename)) →
  main ink getcolor int open_image save listdir splitext join arrival argv =
    ((λ filename,
        ((join dir_path filename ++ "-edit" ++ extension)%string,
         map_pixels (recolor ink clr1 clr2 tolerance) (content filename)))
       <$> filter (λ filename, endswith filename extension = true) filenames,
     Ok ()).
Proof.
  intros Hparse Hlist H1 H2 Hperm Hsave Hfiles. unfold main.
  destruct (parse_directory_flag _ _ _ _ _ _ _ _ Hparse) as [-> ->].
  rewrite Hparse, Hlist.
  pose proof (parse_parameters_bounds int argv _ Hparse) as [Hn _].
  by apply edit_all_Ok.
Qed.

(** X23: directory mode with no file of the extension: the program writes
    nothing and ends normally, and the colour strings are never checked,
    so even invalid colours go unnoticed. *)
Theorem X23_directory_without_match (argv : list string)
    (filenames : list string)
    (dir_path extension color_1 color_2 : string) (tolerance n : Z) :
  parse_parameters int argv =
    Ok (Directory dir_path extension color_1 color_2 tolerance n) →
  listdir dir_path = Ok filenames →
  (∀ filename, filename ∈ filenames → endswith filename extension = false) →
  main ink getcolor int open_image save listdir splitext join arrival argv
    = ([], Ok ()).
Proof.
  intros Hparse Hlist Hno. unfold main.
  destruct (parse_directory_flag _ _ _ _ _ _ _ _ Hparse) as [-> ->].
  rewrite Hparse, Hlist. by apply edit_all_none.
Qed.

(** X24: directory mode stops at the first file of the extension that
    cannot be opened: the program ends with status 1, the files recoloured
    before it stay written, and the files after it are not touched. *)
Theorem X24_directory_stops_at_unreadable (content : string → Image)
    (argv : list string) (before after : list string)
    (failing dir_path extension color_1 color_2 : string) (tolerance n : Z)
    (clr1 clr2 : Color) :
  parse_parameters int argv =
    Ok (Directory dir_path extension color_1 color_2 tolerance n) →
  listdir dir_path = Ok (before ++ failing :: after)%list →
  check_color getcolor int color_1 = Ok clr1 →
  check_color getcolor int color_2 = Ok clr2 →
  (∀ k, arrival k ≡ₚ range0 n) →
  (∀ path img, save path img = None) →
  (∀ filename, filename ∈ before → endswith filename extension = true →
     open_image (join dir_path filename) = Some (content filename) ∧
     wf (content filename)) →
  endswith failing extension = true →
  open_image (join dir_path failing) = None →
  main ink getcolor int open_image save listdir splitext join arrival argv =
    ((λ filename,
        ((join dir_path filename ++ "-edit" ++ extension)%string,
         map_pixels (recolor ink clr1 clr2 tolerance) (content filename)))
       <$> filter (λ filename, endswith filename extension = true) before,
     Raise (SystemExit 1)).
Proof.
  intros Hparse Hlist H1 H2 Hperm Hsave Hbefore Hends Hfail. unfold main.
  destruct (parse_directory_flag _ _ _ _ _ _ _ _ Hparse) as [-> ->].
  rewrite Hparse, Hlist.
  pose proof (parse_parameters_bounds int argv _ Hparse) as [Hn _].
  by apply edit_all_stops.
Qed.

End WholeProgram.

Lemma X20_refused_before_any_file_witness :
  main ink8 only_red int_decimal two_files always_written listing split_png
    slash_join swapped
    ["ColorEdit.py"; "2"; "I"; "image.png"; "red"; "0,0,0,255"; "256"]
    = ([], Raise (SystemExit 1)).
Proof.
  apply (X20_refused_before_any_file _ _ _ _ _ _ _ _ _ _ (SystemExit 1)).
  reflexivity.
Defined.

Lemma swapped_range0_2 (k : nat) : swapped k ≡ₚ range0 2.
Proof. vm_compute. apply perm_swap. Defined.

Lemma X21_single_image_run_witness :
  main ink8 only_red int_decimal two_files always_written listing split_png
    slash_join swapped
    ["ColorEdit.py"; "2"; "I"; "image.png"; "100,100,100,255"; "red"; "1"]
    = ([("image-edit.png",
         map_pixels (recolor ink8 (mkColor 100 100 100 255)
                       (mkColor 255 0 0 255) 1) scenario_image)], Ok ()).
Proof.
  apply (X21_single_image_run ink8 only_red int_decimal two_files
           always_written listing split_png slash_join swapped _
           "image.png" "100,100,100,255" "red" "image" ".png" 1 2
           scenario_image (mkColor 100 100 100 255) (mkColor 255 0 0 255));
    [reflexivity|reflexivity|reflexivity|apply wf_scenario_image
    |reflexivity|reflexivity|apply swapped_range0_2|reflexivity].
Defined.

Lemma X22_directory_run_witness :
  main ink8 only_red int_decimal two_files always_written short_listing
    split_png slash_join swapped
    ["ColorEdit.py"; "2"; "D"; "dir"; ".png"; "100,100,100,255"; "red"; "1"]
    = ((λ filename,
          ((slash_join "dir" filename ++ "-edit" ++ ".png")%string,
           map_pixels (recolor ink8 (mkColor 100 100 100 255)
                         (mkColor 255 0 0 255) 1) scenario_image))
         <$> filter (λ filename, endswith filename ".png" = true)
               ["notes.txt"; "a.png"],
       Ok ()).
Proof.
  apply (X22_directory_run ink8 only_red int_decimal two_files
           always_written short_listing split_png slash_join swapped
           (λ _, scenario_image) _ ["notes.txt"; "a.png"]
           "dir" ".png" "100,100,100,255" "red" 1 2
           (mkColor 100 100 100 255) (mkColor 255 0 0 255));
    [reflexivity|reflexivity|reflexivity|reflexivity
    |apply swapped_range0_2|reflexivity|].
  intros filename Hin Hends.
  apply elem_of_cons in Hin as [->|Hin]; [discriminate Hends|].
  apply list_elem_of_singleton in Hin as ->.
  split; [reflexivity|apply wf_scenario_image].
Defined.

Lemma X23_directory_without_match_witness :
  main ink8 only_red int_decimal two_files always_written listing split_png
    slash_join swapped
    ["ColorEdit.py"; "2"; "D"; "dir"; ".gif"; "no colour"; "red"]
    = ([], Ok ()).
Proof.
  apply (X23_directory_without_match ink8 only_red int_decimal two_files
           always_written listing split_png slash_join swapped _
           ["notes.txt"; "a.png"; "b.png"] "dir" ".gif" "no colour" "red"
           70 2); [reflexivity|reflexivity|].
  intros filename Hin.
  repeat (apply elem_of_cons in Hin as [->|Hin]; [reflexivity|]).
  by apply elem_of_nil in Hin.
Defined.

Lemma X24_directory_stops_at_unreadable_witness :
  main ink8 only_red int_decimal two_files always_written listing split_png
    slash_join swapped
    ["ColorEdit.py"; "2"; "D"; "dir"; ".png"; "100,100,100,255"; "red"; "1"]
    = ((λ filename,
          ((slash_join "dir" filename ++ "-edit" ++ ".png")%string,
           map_pixels (recolor ink8 (mkColor 100 100 100 255)
                         (mkColor 255 0 0 255) 1) scenario_image))
         <$> filter (λ filename, endswith filename ".png" = true)
               ["notes.txt"; "a.png"],
       Raise (SystemExit 1)).
Proof.
  apply (X24_directory_stops_at_unreadable ink8 only_red int_decimal
           two_files always_written listing split_png slash_join swapped
           (λ _, scenario_image) _ ["notes.txt"; "a.png"] [] "b.png"
           "dir" ".png" "100,100,100,255" "red" 1 2
           (mkColor 100 100 100 255) (mkColor 255 0 0 255));
    [reflexivity|reflexivity|reflexivity|reflexivity
    |apply swapped_range0_2|reflexivity| |reflexivity|reflexivity].
  intros filename Hin Hends.
  apply elem_of_cons in Hin as [->|Hin]; [discriminate Hends|].
  apply list_elem_of_singleton in Hin as ->.
  split; [reflexivity|apply wf_scenario_image].
Defined.

Section CleanEnding.

Variable ink : list Z → pixel.
Variable getcolor : string → option Color.
Variable int : string → option Z.
Variable open_image : string → option Image.
Variable save : string → Image → option exn.
Variable listdir : string → result (list string).
Variable splitext : string → string * string.
Variable join : string → string → string.
Variable arrival : nat → list Z.

Lemma check_color_cases (color : string) :
  (∃ c, check_color getcolor int color = Ok c) ∨
  check_color getcolor int color = Raise (SystemExit 1).
Proof.
  destruct (getcolor color) as [c|] eqn:Hname.
  - left. exists c. unfold check_color. by rewrite Hname.
  - destruct (check_color_unknown getcolor int color Hname)
      as [(? & ? & ? & ? & v0 & v1 & v2 & v3 & H)|[_ H]].
    + left. exists (mkColor v0 v1 v2 v3). apply H.
    + by right.
Qed.

Hypothesis opened_wf : ∀ path img, open_image path = Some img → wf img.
Hypothesis written : ∀ path img, save path img = None.

Lemma edit_cases (k : nat) (img_path out_path color_1 color_2 : string)
    (tolerance n : Z) :
  1 ≤ n → arrival k ≡ₚ range0 n →
  (∃ file, edit ink getcolor int open_image save arrival k img_path
             out_path color_1 color_2 tolerance n = Ok file) ∨
  edit ink getcolor int open_image save arrival k img_path out_path
    color_1 color_2 tolerance n = Raise (SystemExit 1).
Proof.
  intros Hn Hperm. unfold edit, access_img.
  destruct (open_image img_path) as [img|] eqn:Hopen; [|by right].
  cbn [mbind result_bind].
  destruct (check_color_cases color_1) as [[clr1 ->]| ->]; [|by right].
  cbn [mbind result_bind].
  destruct (check_color_cases color_2) as [[clr2 ->]| ->]; [|by right].
  cbn [mbind result_bind].
  rewrite change_img_correct by eauto. cbn [mbind result_bind].
  rewrite written. left. eauto.
Qed.

Lemma edit_all_cases (filenames : list string)
    (dir_path extension color_1 color_2 : string) (tolerance n : Z) :
  1 ≤ n → (∀ k, arrival k ≡ₚ range0 n) →
  ∀ k,
  (edit_all ink getcolor int open_image save join arrival k filenames
     dir_path extension color_1 color_2 tolerance n).2 = Ok () ∨
  (edit_all ink getcolor int open_image save join arrival k filenames
     dir_path extension color_1 color_2 tolerance n).2 = Raise (SystemExit 1).
Proof.
  intros Hn Hperm. induction filenames as [|f fs IH]; intros k; [by left|].
  cbn [edit_all]. destruct (endswith f extension); [|apply IH].
  destruct (edit_cases k (join dir_path f)
              (join dir_path f ++ "-edit" ++ extension)%string
              color_1 color_2 tolerance n Hn (Hperm k)) as [[file ->]| ->];
    [|by right].
  specialize (IH (S k)). destruct (edit_all _ _ _ _ _ _ _ _ _ _ _ _ _ _ _).
  exact IH.
Qed.

(** X25: the program ends in one of two ways only.  When every image that
    opens is well-formed, every save succeeds, the directory can be listed
    and every process delivers its container, the program ends normally or
    with status 1, for every command line: no other exception leaves it. *)
Theorem X25_program_ends_cleanly (argv : list string) :
  (∀ dir_path, ∃ filenames, listdir dir_path = Ok filenames) →
  (∀ p, parse_parameters int argv = Ok p →
        ∀ k, arrival k ≡ₚ range0 (core_count_of p)) →
  (main ink getcolor int open_image save listdir splitext join arrival
     argv).2 = Ok () ∨
  (main ink getcolor int open_image save listdir splitext join arrival
     argv).2 = Raise (SystemExit 1).
Proof.
  intros Hlist Hperm. unfold main.
  destruct (parse_parameters int argv) as [p|e] eqn:Hparse.
  - pose proof (parse_parameters_bounds int argv p Hparse) as [Hn _].
    specialize (Hperm p eq_refl).
    destruct p as [image_path color_1 color_2 tolerance n
                  |dir_path extension color_1 color_2 tolerance n];
      cbn in Hn, Hperm.
    + rewrite (parse_single_flag _ _ _ _ _ _ _ Hparse).
      destruct (splitext image_path) as [filename file_extension].
      destruct (edit_cases 0 image_path
                  (filename ++ "-edit" ++ file_extension)%string
                  color_1 color_2 tolerance n Hn (Hperm 0%nat))
        as [[file ->]| ->]; [by left|by right].
    + destruct (parse_directory_flag _ _ _ _ _ _ _ _ Hparse) as [-> ->].
      destruct (Hlist dir_path) as [filenames ->].
      by apply edit_all_cases.
  - destruct (flag_is argv "I" "i") eqn:HI.
    + right. cbn. f_equal. apply (parse_parameters_Raise int argv); [|done].
      unfold flag_is in HI. apply andb_true_iff in HI as [H%Nat.ltb_lt _].
      lia.
    + destruct (flag_is argv "D" "d") eqn:HD; [|by right].
      right. cbn. f_equal. apply (parse_parameters_Raise int argv); [|done].
      unfold flag_is in HD. apply andb_true_iff in HD as [H%Nat.ltb_lt _].
      lia.
Qed.

End CleanEnding.

Lemma two_files_wf (path : string) (img : Image) :
  two_files path = Some img → wf img.
Proof.
  unfold two_files. repeat case_match; try done;
    intros [= <-]; apply wf_scenario_image.
Defined.

Lemma X25_program_ends_cleanly_witness :
  (main ink8 only_red int_decimal two_files always_written listing split_png
     slash_join swapped
     ["ColorEdit.py"; "2"; "I"; "image.png"; "red"; "blue"]).2 = Ok () ∨
  (main ink8 only_red int_decimal two_files always_written listing split_png
     slash_join swapped
     ["ColorEdit.py"; "2"; "I"; "image.png"; "red"; "blue"]).2
    = Raise (SystemExit 1).
Proof.
  apply (X25_program_ends_cleanly ink8 only_red int_decimal two_files
           always_written listing split_png slash_join swapped
           two_files_wf (λ _ _, eq_refl)).
  - intros dir_path. by eexists.
  - intros p [= <-] k. apply swapped_range0_2.
Defined.
